(** * EcommerceShop: the cart, checkout and registration handlers of [app.py]

    A shallow embedding of the Flask handlers of [src/app.py] as functions on
    an explicit world (session + database), with Python exceptions as an
    error result, followed by the properties of the storefront contract. *)

From Stdlib Require Import ZArith String Ascii List Lia.
From Stdlib Require Import SpecFloat.
From stdpp Require Import base option list gmap strings pretty sorting.

Local Open Scope string_scope.
Local Open Scope list_scope.
Local Open Scope Z_scope.

(** ** Python exceptions and results *)

(** The exceptions the handlers can let escape.  [HTTP404] is the abort of
    [get_or_404], [HTTP400] the [BadRequestKeyError] of [request.form[k]],
    [SQLAlchemyError] a failed [db.session.commit()]. *)
Inductive exn : Type :=
  | ValueError
  | TypeError
  | OverflowError
  | HTTP404
  | HTTP400
  | SQLAlchemyError.

Inductive outcome (A : Type) : Type :=
  | Returns (a : A)
  | Raises (e : exn).
Arguments Returns {A} a.
Arguments Raises {A} e.

#[global] Instance outcome_ret : MRet outcome := λ A a, Returns a.
#[global] Instance outcome_bind : MBind outcome := λ A B f m,
  match m with
  | Returns a => f a
  | Raises e => Raises e
  end.

#[global] Instance outcome_fmap : FMap outcome := λ A B f m,
  match m with
  | Returns a => Returns (f a)
  | Raises e => Raises e
  end.


(** ** Python primitives on [str] and [int]

    Strings are byte strings, and the functions below are Python's on ASCII
    text: [strip], [lower] and [int] agree with the interpreter on every
    string of ASCII characters, and say nothing of text beyond ASCII
    (Unicode blanks, letters and digits).  The interpreter also refuses to
    convert between [str] and an [int] of more than 4300 digits; this
    limit is not part of the model, which is the interpreter's on numerals
    of up to 4300 digits. *)
Module Py.

Definition code (c : ascii) : N := N_of_ascii c.

(** [Py_ISSPACE], the blanks [int()] skips around an ASCII literal. *)
Definition is_space_c (c : ascii) : bool :=
  ((9 <=? code c) && (code c <=? 13) || (code c =? 32))%N.

(** [str.isspace] on ASCII, the blanks [str.strip()] removes; it also
    counts the four separators 0x1c..0x1f. *)
Definition is_space (c : ascii) : bool :=
  ((9 <=? code c) && (code c <=? 13) || (28 <=? code c) && (code c <=? 32))%N.

Definition is_digit (c : ascii) : bool :=
  ((48 <=? code c) && (code c <=? 57))%N.

Definition digit_val (c : ascii) : Z := Z.of_N (code c) - 48.

Fixpoint lstrip (sp : ascii → bool) (s : string) : string :=
  match s with
  | String c s' => if sp c then lstrip sp s' else s
  | EmptyString => EmptyString
  end.

Definition rstrip (sp : ascii → bool) (s : string) : string :=
  String.rev (lstrip sp (String.rev s)).

(** [s.strip()], on ASCII text *)
Definition strip (s : string) : string := rstrip is_space (lstrip is_space s).

Definition lower_c (c : ascii) : ascii :=
  if ((65 <=? code c) && (code c <=? 90))%N
  then ascii_of_N (code c + 32) else c.

(** [s.lower()], on ASCII text *)
Fixpoint lower (s : string) : string :=
  match s with
  | String c s' => String (lower_c c) (lower s')
  | EmptyString => EmptyString
  end.

(** The digit part of a base-10 literal: digits, with single underscores
    allowed between two digits.  [prev] tells whether the previous
    character was a digit. *)
Fixpoint digits (s : string) (acc : Z) (prev : bool) : option Z :=
  match s with
  | EmptyString => if prev then Some acc else None
  | String c s' =>
      if is_digit c then digits s' (10 * acc + digit_val c) true
      else if (code c =? 95)%N then
        if prev then digits s' acc false else None
      else None
  end.

(** [int(s)] for a [str] argument of ASCII text: blanks stripped on both
    sides, an optional sign, then the digits; [None] is [ValueError]. *)
Definition int_of_str (s : string) : option Z :=
  match rstrip is_space_c (lstrip is_space_c s) with
  | String "-" s' => Z.opp <$> digits s' 0 false
  | String "+" s' => digits s' 0 false
  | s' => digits s' 0 false
  end.

(** [str(n)] for an [int]. *)
Definition str (n : Z) : string := pretty n.

(** ** [float]: IEEE 754 binary64 *)
Definition float : Type := spec_float.
Definition prec : Z := 53.
Definition emax : Z := 1024.

(** The literal [0.0] *)
Definition fzero : float := S754_zero false.
Definition fadd : float → float → float := SFadd prec emax.
Definition fmul : float → float → float := SFmul prec emax.

(** [float(n)] as done by the arithmetic operators on a mixed
    [float]/[int] pair: round to nearest even, [OverflowError] when the
    integer is beyond the largest finite double. *)
Definition float_of_int (n : Z) : outcome float :=
  match binary_normalize prec emax n 0 false with
  | S754_infinity _ => Raises OverflowError
  | f => Returns f
  end.

(** [x * n] with [x : float], [n : int] *)
Definition fmul_int (x : float) (n : Z) : outcome float :=
  y ← float_of_int n; mret (fmul x y).

(** [n * x] with [n : int], [x : float] *)
Definition int_mul_f (n : Z) (x : float) : outcome float :=
  y ← float_of_int n; mret (fmul y x).

(** A float literal with an integral value, such as [100.0]. *)
Definition lit (n : Z) : float := binary_normalize prec emax n 0 false.

End Py.

(** ** Python [dict]: a finite map that remembers insertion order

    The session cart is a [dict]; [cart_items] adds floats while iterating
    over it, so the order of the entries is part of the model.  A dict is
    the list of its items, oldest first, with pairwise distinct keys. *)
Module Dict.
Section dict.
Context {K V : Type} `{EqDecision K}.

Definition t : Type := list (K * V).

Definition keys (d : t) : list K := d.*1.
Definition values (d : t) : list V := d.*2.

Definition wf (d : t) : Prop := NoDup (keys d).

Fixpoint lookup (d : t) (k : K) : option V :=
  match d with
  | [] => None
  | (k', v) :: d' => if decide (k = k') then Some v else lookup d' k
  end.

(** [d.get(k, dflt)] *)
Definition get (d : t) (k : K) (dflt : V) : V := default dflt (lookup d k).

(** [d[k] = v]: an existing key keeps its place, a new key goes last. *)
Fixpoint set (d : t) (k : K) (v : V) : t :=
  match d with
  | [] => [(k, v)]
  | (k', v') :: d' =>
      if decide (k = k') then (k', v) :: d' else (k', v') :: set d' k v
  end.

(** [d.pop(k, None)]: no error when the key is absent. *)
Fixpoint pop (d : t) (k : K) : t :=
  match d with
  | [] => []
  | (k', v') :: d' => if decide (k = k') then d' else (k', v') :: pop d' k
  end.
End dict.
Arguments t : clear implicits.
End Dict.

(** ** Data model (the SQLAlchemy models) *)

Module Product.
Record t : Type := mk {
  id : Z;
  title : string;
  description : string;
  price : Py.float;
  image_url : option string;
  category_id : option Z
}.
End Product.

(** One element of [Order.items_json].  [json.dumps] of the list is kept
    as the list itself: the text determines it and nothing reads it back. *)
Module OrderItem.
Record t : Type := mk {
  product_id : Z;
  title : string;
  qty : Z;
  price : Py.float
}.
End OrderItem.

Module Order.
Record t : Type := mk {
  id : Z;
  user_id : option Z;
  items_json : list OrderItem.t;
  total : Py.float;
  created_at : Z
}.
End Order.

Module User.
Record t : Type := mk {
  id : Z;
  name : string;
  email : string;
  password_hash : string
}.
End User.

(** A line of [cart_items()]: [{"product": p, "qty": qty, "line_total": ..}] *)
Module LineItem.
Record t : Type := mk {
  product : Product.t;
  qty : Z;
  line_total : Py.float
}.
End LineItem.

(** A cart key is what [request.form.get("pid")] can give: a string, or
    [None] when the field is missing. *)
Definition key : Type := option string.
Definition Cart : Type := Dict.t key Z.

(** ** The world: the client's session and the database *)

Module Session.
Record t : Type := mk {
  cart : option Cart;               (* session["cart"], if set *)
  flashes : list (string * string); (* (category, message), oldest first *)
  user_id : option Z                (* the id stored by login_user *)
}.
End Session.

Module Db.
Record t : Type := mk {
  products : list Product.t;
  orders : list Order.t;
  users : list User.t
}.

(** Primary keys are unique. *)
Definition wf (d : t) : Prop := NoDup (Product.id <$> products d).
End Db.

Module World.
Record t : Type := mk {
  session : Session.t;
  db : Db.t
}.
End World.

Inductive http_method : Type := GET | POST.
#[global] Instance http_method_eq_dec : EqDecision http_method.
Proof. solve_decision. Defined.

(** What a handler reads from the request, and from the outside world while
    it runs: whether the storage engine accepts the commit, and the clock. *)
Module Request.
Record t : Type := mk {
  method : http_method;
  form : list (string * string);
  referrer : option string;
  commit_ok : bool;
  utcnow : Z
}.
End Request.

Inductive Response : Type :=
  | redirect (location : string)
  | render_template (template : string)
  | render_cart (template : string) (items : list LineItem.t) (total : Py.float).

(** ** Handlers run in a state-and-exception monad

    The world a handler leaves is the state in memory when it returns or
    raises: what it had written to the session before raising stays
    written. *)
Definition M (A : Type) : Type := World.t → outcome A * World.t.

#[global] Instance M_ret : MRet M := λ A a w, (Returns a, w).
#[global] Instance M_bind : MBind M := λ A B f m w,
  match m w with
  | (Returns a, w') => f a w'
  | (Raises e, w') => (Raises e, w')
  end.

Definition raise {A} (e : exn) : M A := λ w, (Raises e, w).
Definition lift {A} (o : outcome A) : M A := λ w, (o, w).
Definition gets {A} (f : World.t → A) : M A := λ w, (Returns (f w), w).
Definition modify (f : World.t → World.t) : M unit := λ w, (Returns tt, f w).

Definition with_session (f : Session.t → Session.t) (w : World.t) : World.t :=
  World.mk (f (World.session w)) (World.db w).
Definition with_db (f : Db.t → Db.t) (w : World.t) : World.t :=
  World.mk (World.session w) (f (World.db w)).

Definition set_cart (c : Cart) (s : Session.t) : Session.t :=
  Session.mk (Some c) (Session.flashes s) (Session.user_id s).

(** [session["cart"] = c], and also the effect of mutating in place the
    dict that [get_cart()] returned, which is the session's own. *)
Definition put_cart (c : Cart) : M unit := modify (with_session (set_cart c)).

(** [flash(message, category)] *)
Definition flash (message category : string) : M unit :=
  modify (with_session (λ s,
    Session.mk (Session.cart s) (Session.flashes s ++ [(category, message)])
               (Session.user_id s))).

(** The cart as a reader sees it: a missing ["cart"] key reads as [{}]. *)
Definition cart_of (w : World.t) : Cart :=
  default [] (Session.cart (World.session w)).

Definition url_for (endpoint : string) : string :=
  if decide (endpoint = "index") then "/" else "/" +:+ endpoint.

(** ** Helpers of [app.py] *)

(** [request.form.get(k)]; a repeated field gives its first value. *)
Definition form_get (r : Request.t) (k : string) : option string :=
  Dict.lookup (Request.form r) k.

(** [request.form[k]]: a missing field is a 400. *)
Definition form_item (r : Request.t) (k : string) : outcome string :=
  match form_get r k with
  | Some v => Returns v
  | None => Raises HTTP400
  end.

(** [int(s)] on a string *)
Definition py_int (s : string) : outcome Z :=
  match Py.int_of_str s with
  | Some n => Returns n
  | None => Raises ValueError
  end.

(** [int(request.form.get(k, dflt))] with an [int] default *)
Definition int_field (r : Request.t) (k : string) (dflt : Z) : outcome Z :=
  match form_get r k with
  | Some s => py_int s
  | None => Returns dflt
  end.

(** [int(pid)] on a cart key; [int(None)] is a [TypeError]. *)
Definition int_of_key (k : key) : outcome Z :=
  match k with
  | Some s => py_int s
  | None => Raises TypeError
  end.

(** [get_cart()]: [session.setdefault("cart", {})] *)
Definition get_cart : M Cart := λ w,
  match Session.cart (World.session w) with
  | Some c => (Returns c, w)
  | None => (Returns [], with_session (set_cart []) w)
  end.

(** [[int(pid) for pid in c.keys()]] *)
Fixpoint int_keys (ks : list key) : outcome (list Z) :=
  match ks with
  | [] => Returns []
  | k :: ks' => i ← int_of_key k; l ← int_keys ks'; mret (i :: l)
  end.

(** An integer the storage engine can bind as a parameter: SQLite, the
    engine of [app.config] unless [DATABASE_URL] names another, keeps
    integers in 64 bits, and its driver raises [OverflowError] for a Python
    [int] outside them. *)
Definition in_int64 (i : Z) : bool := (- 2 ^ 63 <=? i) && (i <? 2 ^ 63).

(** [Product.query.filter(Product.id.in_(ids)).all() if ids else []]: no
    query for an empty list; otherwise every id is bound, then the rows
    whose id is among them are fetched. *)
Definition products_in (ids : list Z) (ps : list Product.t)
    : outcome (list Product.t) :=
  match ids with
  | [] => Returns []
  | _ =>
      if forallb in_int64 ids then Returns (filter (λ p, Product.id p ∈ ids) ps)
      else Raises OverflowError
  end.

(** [{p.id: p for p in products}] *)
Definition index_by_id (ps : list Product.t) : gmap Z Product.t :=
  foldl (λ m p, <[Product.id p := p]> m) ∅ ps.

(** The [for pid, qty in c.items()] loop of [cart_items], with its two
    accumulators. *)
Fixpoint cart_loop (by_id : gmap Z Product.t) (c : list (key * Z))
    (items : list LineItem.t) (total : Py.float)
    : outcome (list LineItem.t * Py.float) :=
  match c with
  | [] => Returns (items, total)
  | (pid, qty) :: c' =>
      i ← int_of_key pid;
      match by_id !! i with
      | None => cart_loop by_id c' items total
      | Some p =>
          line_total ← Py.fmul_int (Product.price p) qty;
          cart_loop by_id c' (items ++ [LineItem.mk p qty line_total])
                    (Py.fadd total line_total)
      end
  end.

Definition cart_items : M (list LineItem.t * Py.float) :=
  c ← get_cart;
  ids ← lift (int_keys (Dict.keys c));
  table ← gets (λ w, Db.products (World.db w));
  products ← lift (products_in ids table);
  let by_id := index_by_id products in
  lift (cart_loop by_id c [] Py.fzero).

(** [inject_cart_count]: [sum(cart.values())] *)
Definition inject_cart_count : M Z :=
  cart ← get_cart; mret (foldl Z.add 0 (Dict.values cart)).

(** [render_template(...)]: the context processor runs for every template
    that is rendered, so the cart is read through [get_cart()] first. *)
Definition render {A} (page : A) : M A := inject_cart_count;; mret page.

(** [Product.query.get_or_404(pid)] *)
Definition find_product (pid : Z) (ps : list Product.t) : option Product.t :=
  List.find (λ p, bool_decide (Product.id p = pid)) ps.

(** The row with primary key [pid], or the 404.  The engine binds [pid]
    first and raises [OverflowError] when it does not fit 64 bits; as no
    stored row has such a key, this shows exactly when no row is found. *)
Definition get_or_404 (pid : Z) : M Product.t :=
  ps ← gets (λ w, Db.products (World.db w));
  match find_product pid ps with
  | Some p => mret p
  | None => if in_int64 pid then raise HTTP404 else raise OverflowError
  end.

(** [request.referrer or url_for("index")] *)
Definition referrer_or_index (r : Request.t) : string :=
  match Request.referrer r with
  | Some u => if decide (u = "") then url_for "index" else u
  | None => url_for "index"
  end.

(** ** Routes *)

(** [POST /add-to-cart/<int:pid>]; the converter only lets a non-negative
    integer through. *)
Definition add_to_cart (pid : N) (r : Request.t) : M Response :=
  qty ← lift (int_field r "qty" 1);
  product ← get_or_404 (Z.of_N pid);
  cart ← get_cart;
  let k := Some (Py.str (Z.of_N pid)) in
  put_cart (Dict.set cart k (Dict.get cart k 0 + Z.max 1 qty));;
  flash ("Added " +:+ Product.title product +:+ " (x" +:+ Py.str qty
         +:+ ") to cart.") "success";;
  mret (redirect (referrer_or_index r)).

(** [GET, POST /cart] *)
Definition cart_view (r : Request.t) : M Response :=
  (if decide (Request.method r = POST) then
     let action := form_get r "action" in
     let pid := form_get r "pid" in
     cart ← get_cart;
     if decide (action = Some "update") then
       q ← lift (int_field r "qty" 1);
       let qty := Z.max 0 q in
       if decide (qty = 0) then put_cart (Dict.pop cart pid)
       else put_cart (Dict.set cart pid qty)
     else if decide (action = Some "clear") then put_cart []
     else mret tt
   else mret tt);;
  '(items, total) ← cart_items;
  render (render_cart "cart.html" items total).

(** [current_user.id if current_user.is_authenticated else None]: the
    session's user id, when [load_user] finds that user. *)
Definition current_user_id (w : World.t) : option Z :=
  uid ← Session.user_id (World.session w);
  u ← List.find (λ u, bool_decide (User.id u = uid)) (Db.users (World.db w));
  Some (User.id u).

(** The integer primary key the engine gives a new row. *)
Definition next_id (ids : list Z) : Z := 1 + foldr Z.max 0 ids.

(** [db.session.commit()] of the pending insert [f]: all of it or nothing. *)
Definition commit (r : Request.t) (f : Db.t → Db.t) : M unit :=
  if Request.commit_ok r then modify (with_db f) else raise SQLAlchemyError.

Definition add_order (o : Order.t) (d : Db.t) : Db.t :=
  Db.mk (Db.products d) (Db.orders d ++ [o]) (Db.users d).

Definition add_user (u : User.t) (d : Db.t) : Db.t :=
  Db.mk (Db.products d) (Db.orders d) (Db.users d ++ [u]).

Definition order_item (it : LineItem.t) : OrderItem.t :=
  OrderItem.mk (Product.id (LineItem.product it))
               (Product.title (LineItem.product it))
               (LineItem.qty it)
               (Product.price (LineItem.product it)).

(** [GET, POST /checkout] *)
Definition checkout (r : Request.t) : M Response :=
  '(items, total) ← cart_items;
  if decide (Request.method r = POST) then
    match items with
    | [] =>
        flash "Your cart is empty." "warning";;
        mret (redirect (url_for "index"))
    | _ =>
        let order_items := order_item <$> items in
        uid ← gets current_user_id;
        oid ← gets (λ w, next_id (Order.id <$> Db.orders (World.db w)));
        let order := Order.mk oid uid order_items total (Request.utcnow r) in
        commit r (add_order order);;
        put_cart [];;
        flash ("Order #" +:+ Py.str (Order.id order)
               +:+ " placed successfully!") "success";;
        mret (redirect (url_for "index"))
    end
  else render (render_cart "checkout.html" items total).

(** [User.query.filter_by(email=email).first()] *)
Definition find_user_by_email (email : string) (us : list User.t)
    : option User.t :=
  List.find (λ u, bool_decide (User.email u = email)) us.

Section Accounts.

(** The password-hashing capability, [bcrypt.generate_password_hash]: from
    a salt and the password to the digest text. *)
Variable generate_password_hash : string → string → string.

(** [GET, POST /register]; [salt] is the randomness bcrypt draws. *)
Definition register (salt : string) (r : Request.t) : M Response :=
  if decide (Request.method r = POST) then
    name ← lift (Py.strip <$> form_item r "name");
    email ← lift ((λ e, Py.strip (Py.lower e)) <$> form_item r "email");
    password ← lift (form_item r "password");
    existing ← gets (λ w, find_user_by_email email (Db.users (World.db w)));
    match existing with
    | Some _ =>
        flash "Email already registered." "warning";;
        mret (redirect (url_for "register"))
    | None =>
        uid ← gets (λ w, next_id (User.id <$> Db.users (World.db w)));
        let user :=
          User.mk uid name email (generate_password_hash salt password) in
        commit r (add_user user);;
        flash "Registration successful. Please login." "success";;
        mret (redirect (url_for "login"))
    end
  else render (render_template "register.html").

End Accounts.

(** ** Definitions used to state the contract *)

(** The world after [get_cart()]: the ["cart"] key is set, nothing the
    reader sees has changed. *)
Definition touch (w : World.t) : World.t := with_session (set_cart (cart_of w)) w.

(** The world with its cart replaced. *)
Definition with_cart (c : Cart) (w : World.t) : World.t :=
  with_session (set_cart c) w.




(** The cart invariant of the data model: distinct keys, quantities of at
    least 1. *)
Definition cart_inv (c : Cart) : Prop :=
  Dict.wf c ∧ Forall (λ e, (1 ≤ e.2)%Z) c.







(** The sum of an order over its own snapshots, of [it.qty * it.price],
    added left to right onto [acc]; it raises as the multiplication
    does. *)
Fixpoint snapshot_sum (its : list OrderItem.t) (acc : Py.float)
    : outcome Py.float :=
  match its with
  | [] => Returns acc
  | it :: its' =>
      x ← Py.int_mul_f (OrderItem.qty it) (OrderItem.price it);
      snapshot_sum its' (Py.fadd acc x)
  end.

(** An order whose stored total is the sum over its own snapshots. *)
Definition order_consistent (o : Order.t) : Prop :=
  snapshot_sum (Order.items_json o) Py.fzero = Returns (Order.total o).

(** A snapshot that carries the catalog's title and price of its product. *)
Definition from_catalog (K : list Product.t) (it : OrderItem.t) : Prop :=
  ∃ p, p ∈ K ∧ Product.id p = OrderItem.product_id it ∧
       OrderItem.title it = Product.title p ∧
       OrderItem.price it = Product.price p.

(** A small shop for the examples: product 5 at 100.0, product 7 at 3499.0. *)
Definition headphones : Product.t :=
  Product.mk 5 "Wireless Headphones" "Comfortable over-ear headphones."
             (Py.lit 100) None (Some 1).
Definition watch : Product.t :=
  Product.mk 7 "Smart Watch" "Track fitness." (Py.lit 3499) None (Some 1).
Definition shop : Db.t := Db.mk [headphones; watch] [] [].

(** A world of that shop with the given cart, nobody logged in. *)
Definition shop_with (c : Cart) : World.t :=
  World.mk (Session.mk (Some c) [] None) shop.
(** A new session: no ["cart"] key yet. *)
Definition shop_new : World.t := World.mk (Session.mk None [] None) shop.

Definition post (form : list (string * string)) : Request.t :=
  Request.mk POST form None true 0.
Definition post_failing (form : list (string * string)) : Request.t :=
  Request.mk POST form None false 0.

(** Between two requests the session travels in the cookie as JSON, which
    Flask writes with [sort_keys=True]: the entries of the cart come back in
    ascending order of their keys, which are strings, a lone [None] key
    being written as ["null"], and the dict is rebuilt entry by entry. *)
Definition json_key (k : key) : key := Some (default "null" k).
Definition key_le (e1 e2 : key * Z) : Prop :=
  String.leb (default "null" e1.1) (default "null" e2.1) = true.
#[global] Instance key_le_dec : RelDecision key_le :=
  λ e1 e2, decide (String.leb (default "null" e1.1) (default "null" e2.1) = true).
Definition reload_cart (c : Cart) : Cart :=
  foldl (λ d e, Dict.set d (json_key e.1) e.2) [] (merge_sort key_le c).
Definition reload (w : World.t) : World.t :=
  with_session (λ s, Session.mk (reload_cart <$> Session.cart s)
                                (Session.flashes s) (Session.user_id s)) w.

(** The sort compares the keys, and Python does not compare [None] with a
    [str]: a cart that holds the key [None] beside another key cannot be
    written, and [reload] says nothing of it. *)
Definition writable (c : Cart) : bool :=
  bool_decide (None ∉ Dict.keys c) || bool_decide (length c ≤ 1)%nat.

(** What the next request finds after a request that started in [w] and
    left [w']: the database as it was left, with the session just written
    or, when that one could not be written, the session of the cookie the
    client still has, the one this request started with. *)
Definition send_back (w w' : World.t) : World.t :=
  if writable (cart_of w') then reload w'
  else World.mk (World.session w) (World.db w').

(** The requests a client can send, and the transition each makes. *)
Inductive call : Type :=
  | DoAddToCart (pid : N) (r : Request.t)
  | DoCartView (r : Request.t)
  | DoCheckout (r : Request.t)
  | DoRegister (salt : string) (r : Request.t).

Section Server.
Variable generate_password_hash : string → string → string.

Definition handle (c : call) : M Response :=
  match c with
  | DoAddToCart pid r => add_to_cart pid r
  | DoCartView r => cart_view r
  | DoCheckout r => checkout r
  | DoRegister salt r => register generate_password_hash salt r
  end.

(** The world after a sequence of requests, in order, the session being
    sent back after each of them. *)
Definition serve (cs : list call) (w : World.t) : World.t :=
  foldl (λ w c, send_back w (handle c w).2) w cs.
End Server.

(** The key [str(pid)] under which [add_to_cart] files product [pid]. *)
Definition cart_key (pid : N) : key := Some (Py.str (Z.of_N pid)).

(** What [cart_items()] computes from the cart and the product table. *)
Definition cart_calc (K : list Product.t) (c : Cart)
    : outcome (list LineItem.t * Py.float) :=
  ids ← int_keys (Dict.keys c);
  products ← products_in ids K;
  cart_loop (index_by_id products) c [] Py.fzero.

(** The form of [POST /cart] that sets product [pid] to quantity [qty]. *)
Definition update_form (pid qty : string) : list (string * string) :=
  [("action", "update"); ("pid", pid); ("qty", qty)].

(** The order a successful [POST /checkout] builds from the lines and the
    total that [cart_items()] gave it. *)
Definition placed_order (r : Request.t) (w : World.t)
    (items : list LineItem.t) (total : Py.float) : Order.t :=
  Order.mk (next_id (Order.id <$> Db.orders (World.db w)))
           (current_user_id w) (order_item <$> items) total (Request.utcnow r).

Definition flashes_of (w : World.t) : list (string * string) :=
  Session.flashes (World.session w).

(** A stand-in for bcrypt in the examples; any function would do. *)
Definition demo_hash (salt password : string) : string :=
  "$2b$12$" +:+ salt +:+ "." +:+ Py.str (Z.of_nat (String.length password)).

(** An order that is consistent and made of snapshots of the catalog. *)
Definition order_ok (K : list Product.t) (o : Order.t) : Prop :=
  order_consistent o ∧ Forall (from_catalog K) (Order.items_json o).

(** The case-normalized email [register] and [login] look up and store:
    [email.lower().strip()]. *)
Definition normalize_email (email : string) : string :=
  Py.strip (Py.lower email).

(** The row [register] inserts. *)
Definition new_user (generate_password_hash : string → string → string)
    (salt : string) (w : World.t) (name email password : string) : User.t :=
  User.mk (next_id (User.id <$> Db.users (World.db w)))
          (Py.strip name) (normalize_email email)
          (generate_password_hash salt password).

Definition register_form (name email password : string)
    : list (string * string) :=
  [("name", name); ("email", email); ("password", password)].

(** ** The other routes *)

(** What [product_detail] renders: the template with the product [p]. *)
Inductive DetailPage : Type :=
  | render_product (template : string) (p : Product.t).

(** [GET /product/<int:pid>] *)
Definition product_detail (pid : N) : M DetailPage :=
  p ← get_or_404 (Z.of_N pid);
  render (render_product "product_detail.html" p).

(** [login_user(user)]: the session remembers the user's id. *)
Definition login_user (u : User.t) : M unit :=
  modify (with_session (λ s,
    Session.mk (Session.cart s) (Session.flashes s) (Some (User.id u)))).

(** [logout_user()]: the session forgets it. *)
Definition logout_user : M unit :=
  modify (with_session (λ s,
    Session.mk (Session.cart s) (Session.flashes s) None)).

(** [next_url or url_for("index")], with [next_url] the query parameter
    [next]. *)
Definition next_or_index (args : list (string * string)) : string :=
  match Dict.lookup args "next" with
  | Some u => if decide (u = "") then url_for "index" else u
  | None => url_for "index"
  end.

Section Sessions.

(** The verifying half of the hashing capability,
    [bcrypt.check_password_hash(pw_hash, password)]. *)
Variable check_password_hash : string → string → bool.

(** What [login_required] answers to a visitor who is not logged in,
    [login_manager.unauthorized()]. *)
Variable unauthorized : M Response.

(** [GET, POST /login]; [args] is the query string. *)
Definition login (args : list (string * string)) (r : Request.t) : M Response :=
  if decide (Request.method r = POST) then
    email ← lift ((λ e, Py.strip (Py.lower e)) <$> form_item r "email");
    password ← lift (form_item r "password");
    user ← gets (λ w, find_user_by_email email (Db.users (World.db w)));
    match user with
    | Some u =>
        if check_password_hash (User.password_hash u) password then
          login_user u;;
          flash "Welcome back!" "success";;
          mret (redirect (next_or_index args))
        else
          flash "Invalid credentials." "danger";;
          render (render_template "login.html")
    | None =>
        flash "Invalid credentials." "danger";;
        render (render_template "login.html")
    end
  else render (render_template "login.html").

(** [GET /logout], behind [login_required]. *)
Definition logout : M Response :=
  uid ← gets current_user_id;
  match uid with
  | None => unauthorized
  | Some _ =>
      logout_user;;
      flash "Logged out." "info";;
      mret (redirect (url_for "index"))
  end.

End Sessions.

(** Everything a visitor can ask of the site. *)
Inductive visit : Type :=
  | Shop (c : call)
  | Detail (pid : N)
  | Login (args : list (string * string)) (r : Request.t)
  | Logout.

Section Site.
Variable generate_password_hash : string → string → string.
Variable check_password_hash : string → string → bool.
Variable unauthorized : M Response.

(** The world a visit leaves. *)
Definition visit_world (v : visit) (w : World.t) : World.t :=
  match v with
  | Shop c => (handle generate_password_hash c w).2
  | Detail pid => (product_detail pid w).2
  | Login args r => (login check_password_hash args r w).2
  | Logout => (logout unauthorized w).2
  end.

(** The world after a sequence of visits, the session sent back after
    each. *)
Definition browse (vs : list visit) (w : World.t) : World.t :=
  foldl (λ w v, send_back w (visit_world v w)) w vs.
End Site.

(** The cart badge as a function of the cart: [sum(cart.values())]. *)
Definition cart_count (c : Cart) : Z := foldl Z.add 0 (Dict.values c).

(** What Flask-Login answers in the examples: a message and the way to the
    login form. *)
Definition demo_unauthorized : M Response :=
  flash "Please log in to access this page." "message";;
  mret (redirect "/login?next=%2Flogout").

(** A verifier that goes with [demo_hash], for the salts of the examples. *)
Definition demo_check (digest password : string) : bool :=
  existsb (λ salt, bool_decide (digest = demo_hash salt password)) ["s1"; "s2"].

(** How one visit can change the database: not at all, by one order with
    a new id and an existing user (or none), or by one user with a new id
    and a new email. *)
Inductive db_step (d : Db.t) : Db.t → Prop :=
  | db_same : db_step d d
  | db_order (o : Order.t) :
      Order.id o = next_id (Order.id <$> Db.orders d) →
      (∀ uid, Order.user_id o = Some uid → uid ∈ User.id <$> Db.users d) →
      db_step d (add_order o d)
  | db_user (u : User.t) :
      User.id u = next_id (User.id <$> Db.users d) →
      User.email u ∉ User.email <$> Db.users d →
      db_step d (add_user u d).

(** The keys of the tables: order ids, user ids and user emails are
    pairwise distinct. *)
Definition unique_keys (d : Db.t) : Prop :=
  NoDup (Order.id <$> Db.orders d) ∧
  NoDup (User.id <$> Db.users d) ∧
  NoDup (User.email <$> Db.users d).

(** Every order of a user is the order of a stored user. *)
Definition orders_have_users (d : Db.t) : Prop :=
  Forall (λ o, ∀ uid, Order.user_id o = Some uid → uid ∈ User.id <$> Db.users d)
         (Db.orders d).


(** ** The [seed] command *)

Module Category.
Record t : Type := mk {
  id : Z;
  name : string
}.
End Category.

(** The two tables [seed] reads and fills. *)
Module Catalog.
Record t : Type := mk {
  categories : list Category.t;
  products : list Product.t
}.
End Catalog.

Definition seed_categories : list string :=
  ["Electronics"; "Clothing"; "Books"; "Home"].

(** A row of [sample]: title, description, price, image, category name. *)
Definition sample_row : Type := string * string * Py.float * string * string.

Definition sample : list sample_row :=
  [("Wireless Headphones", "Comfortable over‑ear headphones with clear sound.",
    Py.lit 1999, "https://picsum.photos/seed/headphones/600/400", "Electronics");
   ("Smart Watch", "Track fitness, notifications, and heart rate.",
    Py.lit 3499, "https://picsum.photos/seed/smartwatch/600/400", "Electronics");
   ("Cotton T‑Shirt", "Soft, breathable cotton tee in multiple colors.",
    Py.lit 499, "https://picsum.photos/seed/tshirt/600/400", "Clothing");
   ("Stainless Water Bottle", "Insulated bottle keeps drinks cold for 24h.",
    Py.lit 699, "https://picsum.photos/seed/bottle/600/400", "Home");
   ("Programming Book", "Master Python with practical examples.",
    Py.lit 899, "https://picsum.photos/seed/book/600/400", "Books")].

(** How a run of [seed] ends: normally, with the [KeyError] of
    [cat_by_name[cname]], or with a commit the engine refused; each with
    the tables as they are then stored. *)
Inductive seed_result : Type :=
  | Seeded (s : Catalog.t)
  | SeedKeyError (cname : string) (s : Catalog.t)
  | SeedCommitFailed (s : Catalog.t).

Definition seed_store (res : seed_result) : Catalog.t :=
  match res with
  | Seeded s | SeedKeyError _ s | SeedCommitFailed s => s
  end.

(** [db.session.add_all(cats)]: the rows in order, each with the next id. *)
Fixpoint insert_categories (names : list string) (cats : list Category.t)
    : list Category.t :=
  match names with
  | [] => cats
  | n :: names' =>
      insert_categories names'
        (cats ++ [Category.mk (next_id (Category.id <$> cats)) n])
  end.

(** [{c.name: c for c in cats}] *)
Definition cat_by_name (cats : list Category.t) : gmap string Category.t :=
  foldl (λ m c, <[Category.name c := c]> m) ∅ cats.

(** The loop over [sample]: each product is added with the next id and
    the category found under its name; a name that is not there ends the
    loop with [KeyError]. *)
Fixpoint add_products (by_name : gmap string Category.t)
    (rows : list sample_row) (ps : list Product.t) : string + list Product.t :=
  match rows with
  | [] => inr ps
  | (title, desc, price, img, cname) :: rows' =>
      match by_name !! cname with
      | None => inl cname
      | Some c =>
          add_products by_name rows'
            (ps ++ [Product.mk (next_id (Product.id <$> ps)) title desc price
                      (Some img) (Some (Category.id c))])
      end
  end.

(** [flask seed]; the two booleans tell whether the engine accepts the
    commit of the categories and that of the products. *)
Definition seed (ok_categories ok_products : bool) (s : Catalog.t)
    : seed_result :=
  match
    match Catalog.categories s with
    | [] => if ok_categories then Some (insert_categories seed_categories [])
            else None
    | cats => Some cats
    end
  with
  | None => SeedCommitFailed s
  | Some cats =>
      match Catalog.products s with
      | [] =>
          match add_products (cat_by_name cats) sample [] with
          | inl cname => SeedKeyError cname (Catalog.mk cats [])
          | inr ps =>
              if ok_products then Seeded (Catalog.mk cats ps)
              else SeedCommitFailed (Catalog.mk cats [])
          end
      | ps => Seeded (Catalog.mk cats ps)
      end
  end.


(** * Properties *)

Example int_of_str_ex :
  Py.int_of_str " 12 " = Some 12 ∧ Py.int_of_str "-3" = Some (-3) ∧
  Py.int_of_str "1_000" = Some 1000 ∧ Py.int_of_str "abc" = None ∧
  Py.int_of_str "" = None ∧ Py.int_of_str "1.5" = None ∧
  Py.int_of_str "1__0" = None ∧ Py.int_of_str "+007" = Some 7.
Proof. repeat split; reflexivity. Qed.

Example strip_lower_ex : Py.strip (Py.lower "  Test@X.com ") = "test@x.com".
Proof. reflexivity. Qed.

Example float_ex :
  Py.fmul_int (Py.lit 100) 2 = Returns (Py.lit 200) ∧
  Py.fmul_int (Py.lit 100) (2 ^ 1024) = Raises OverflowError.
Proof. split; vm_compute; reflexivity. Qed.

(** ** Dict laws *)
Section dict_laws.
Context {K V : Type} `{EqDecision K}.
Implicit Types (d : Dict.t K V) (k : K) (v : V).

Lemma lookup_None_keys d k : Dict.lookup d k = None ↔ k ∉ Dict.keys d.
Proof.
  induction d as [|[k' v'] d IH]; simpl.
  - split; [intros _; apply not_elem_of_nil | done].
  - rewrite not_elem_of_cons. case_decide as Hk.
    + split; [done | by intros [? _]].
    + rewrite IH. split; [done | by intros [_ ?]].
Qed.

Lemma set_fresh d k v :
  Dict.lookup d k = None → Dict.set d k v = d ++ [(k, v)].
Proof.
  induction d as [|[k' v'] d IH]; simpl; [done|].
  case_decide; [done|]. intros Hd. by rewrite IH.
Qed.

Lemma set_keys_present d k v :
  is_Some (Dict.lookup d k) → Dict.keys (Dict.set d k v) = Dict.keys d.
Proof.
  induction d as [|[k' v'] d IH]; simpl.
  - by intros [? ?].
  - case_decide; [done|]. intros Hd. unfold Dict.keys in *. csimpl.
    by rewrite IH.
Qed.

Lemma lookup_set_eq d k v : Dict.lookup (Dict.set d k v) k = Some v.
Proof.
  induction d as [|[k' v'] d IH]; simpl.
  - by rewrite decide_True.
  - case_decide as Hk; simpl.
    + by rewrite decide_True.
    + by rewrite decide_False.
Qed.

Lemma lookup_set_ne d k k' v :
  k ≠ k' → Dict.lookup (Dict.set d k v) k' = Dict.lookup d k'.
Proof.
  intros Hne. induction d as [|[k0 v0] d IH]; simpl.
  - by rewrite decide_False.
  - destruct (decide (k = k0)) as [->|Hk]; simpl.
    + by rewrite !(decide_False (P := k' = k0)).
    + by rewrite IH.
Qed.

Lemma pop_absent d k : Dict.lookup d k = None → Dict.pop d k = d.
Proof.
  induction d as [|[k' v'] d IH]; simpl; [done|].
  case_decide; [done|]. intros Hd. by rewrite IH.
Qed.

Lemma pop_set_fresh d k v :
  Dict.lookup d k = None → Dict.pop (Dict.set d k v) k = d.
Proof.
  induction d as [|[k' v'] d IH]; simpl.
  - by rewrite decide_True.
  - case_decide; [done|]. intros Hd. simpl. rewrite decide_False by done.
    by rewrite IH.
Qed.

Lemma pop_keys_sub d k k' : k' ∈ Dict.keys (Dict.pop d k) → k' ∈ Dict.keys d.
Proof.
  unfold Dict.keys. induction d as [|[k0 v0] d IH]; csimpl; [done|].
  case_decide; csimpl; rewrite !elem_of_cons; auto.
  intros [?|?]; auto.
Qed.

Lemma wf_pop d k : Dict.wf d → Dict.wf (Dict.pop d k).
Proof.
  unfold Dict.wf, Dict.keys. induction d as [|[k' v'] d IH]; csimpl; [done|].
  rewrite NoDup_cons. intros [Hk Hd].
  case_decide; [done|]. csimpl. apply NoDup_cons. split; [|auto].
  intros Hin. by apply Hk, (pop_keys_sub d k).
Qed.

Lemma lookup_pop_eq d k : Dict.wf d → Dict.lookup (Dict.pop d k) k = None.
Proof.
  unfold Dict.wf, Dict.keys. induction d as [|[k' v'] d IH]; csimpl; [done|].
  rewrite NoDup_cons. intros [Hk Hd].
  case_decide as Hkk.
  - subst k'. by apply lookup_None_keys.
  - csimpl. rewrite decide_False by done. auto.
Qed.

Lemma set_keys_sub d k v k' :
  k' ∈ Dict.keys (Dict.set d k v) → k' = k ∨ k' ∈ Dict.keys d.
Proof.
  unfold Dict.keys. induction d as [|[k0 v0] d IH]; csimpl.
  - rewrite list_elem_of_singleton. auto.
  - case_decide; csimpl; rewrite !elem_of_cons; [auto|].
    intros [?|Hin]; [auto|]. apply IH in Hin as [?|?]; auto.
Qed.

Lemma wf_set d k v : Dict.wf d → Dict.wf (Dict.set d k v).
Proof.
  unfold Dict.wf, Dict.keys. induction d as [|[k' v'] d IH]; csimpl.
  - intros _. apply NoDup_singleton.
  - rewrite NoDup_cons. intros [Hk Hd].
    case_decide as Hkk; csimpl; apply NoDup_cons; [done|].
    split; [|auto]. intros Hin. apply (set_keys_sub d) in Hin as [->|Hin]; done.
Qed.

Lemma Forall_set (P : K * V → Prop) d k v :
  Forall P d → (∀ k0, P (k0, v)) → Forall P (Dict.set d k v).
Proof.
  intros Hd Hv. induction Hd as [|[k' v'] d HP Hd IH]; simpl.
  - by constructor.
  - case_decide; constructor; auto.
Qed.

Lemma Forall_pop (P : K * V → Prop) d k : Forall P d → Forall P (Dict.pop d k).
Proof.
  intros Hd. induction Hd as [|[k' v'] d HP Hd IH]; simpl; [done|].
  case_decide; [done|]. by constructor.
Qed.

Lemma lookup_Forall (P : K * V → Prop) d k v :
  Forall P d → Dict.lookup d k = Some v → P (k, v).
Proof.
  intros Hd. induction Hd as [|[k' v'] d HP Hd IH]; simpl; [done|].
  case_decide; [|done]. intros [= <-]. by subst.
Qed.

End dict_laws.

(** ** How the handlers run *)

Ltac run :=
  unfold mbind, M_bind, mret, M_ret, lift, gets, modify, raise, put_cart,
    flash, commit; simpl.

Lemma get_cart_run w : get_cart w = (Returns (cart_of w), touch w).
Proof. by destruct w as [[[c|] fl u] d]. Qed.

Lemma cart_of_touch w : cart_of (touch w) = cart_of w.
Proof. done. Qed.

Lemma touch_touch w : touch (touch w) = touch w.
Proof. done. Qed.

(** Rendering reads the cart and nothing else. *)
Lemma render_run {A} (page : A) w : render page w = (Returns page, touch w).
Proof. unfold render, inject_cart_count. run. by rewrite get_cart_run. Qed.

Lemma cart_of_with_cart c w : cart_of (with_cart c w) = c.
Proof. done. Qed.

Lemma cart_of_flash m cat w : cart_of (flash m cat w).2 = cart_of w.
Proof. done. Qed.

Lemma cart_items_run w :
  cart_items w = (cart_calc (Db.products (World.db w)) (cart_of w), touch w).
Proof.
  unfold cart_items, cart_calc. run. rewrite get_cart_run.
  destruct (int_keys (Dict.keys (cart_of w))) as [ids|]; [|done]. simpl.
  by destruct (products_in ids (Db.products (World.db w))).
Qed.

(** A successful [add_to_cart], in full. *)
Lemma add_to_cart_run pid r w q p :
  int_field r "qty" 1 = Returns q →
  find_product (Z.of_N pid) (Db.products (World.db w)) = Some p →
  add_to_cart pid r w =
    (Returns (redirect (referrer_or_index r)),
     (flash ("Added " +:+ Product.title p +:+ " (x" +:+ Py.str q
             +:+ ") to cart.") "success"
        (with_cart (Dict.set (cart_of w) (cart_key pid)
                      (Dict.get (cart_of w) (cart_key pid) 0 + Z.max 1 q)) w)).2).
Proof.
  intros Hq Hp. unfold add_to_cart, get_or_404. run.
  rewrite Hq, Hp, get_cart_run. done.
Qed.

(** [add_to_cart] on a product the catalog does not have. *)
Lemma add_to_cart_404 pid r w q :
  int_field r "qty" 1 = Returns q →
  find_product (Z.of_N pid) (Db.products (World.db w)) = None →
  add_to_cart pid r w
  = (Raises (if in_int64 (Z.of_N pid) then HTTP404 else OverflowError), w).
Proof.
  intros Hq Hp. unfold add_to_cart, get_or_404. run. rewrite Hq, Hp.
  by destruct (in_int64 (Z.of_N pid)).
Qed.

(** [add_to_cart] never removes or lowers anything: whatever the request,
    the cart afterwards is the old one or the old one with [pid] set. *)
Lemma add_to_cart_cart pid r w :
  cart_of (add_to_cart pid r w).2 = cart_of w ∨
  ∃ q, cart_of (add_to_cart pid r w).2 =
       Dict.set (cart_of w) (cart_key pid)
         (Dict.get (cart_of w) (cart_key pid) 0 + Z.max 1 q).
Proof.
  unfold add_to_cart, get_or_404. run.
  destruct (int_field r "qty" 1) as [q|]; simpl; [|by left].
  destruct (find_product _ _) as [p|]; simpl;
    [|left; by destruct (in_int64 (Z.of_N pid))].
  rewrite get_cart_run. right. by exists q.
Qed.

(** The cart after [POST /cart] with [action=update], whatever the page
    then renders or raises. *)
Lemma cart_view_update r w q :
  Request.method r = POST →
  form_get r "action" = Some "update" →
  int_field r "qty" 1 = Returns q →
  cart_of (cart_view r w).2 =
    if decide (Z.max 0 q = 0) then Dict.pop (cart_of w) (form_get r "pid")
    else Dict.set (cart_of w) (form_get r "pid") (Z.max 0 q).
Proof.
  intros Hm Ha Hq. unfold cart_view. run.
  rewrite Hm, Ha, !decide_True, get_cart_run, Hq by done. simpl.
  destruct (decide (Z.max 0 q = 0)); simpl; rewrite cart_items_run;
    by destruct (cart_calc _ _) as [[??]|].
Qed.

(** ** Cart mutation *)

(** C7: for every cart, every product of the catalog and every integer
    quantity [q] sent (also [q <= 0]), [add_to_cart] succeeds and stores
    [max(1, q)] added to the existing quantity when the id is already in
    the cart, keeping the entry where it was, and appends a new entry with
    quantity [max(1, q)] otherwise; no other entry changes. *)
Theorem add_stores_clamped_quantity (pid : N) (r : Request.t) (w : World.t)
    (q : Z) (p : Product.t) :
  int_field r "qty" 1 = Returns q →
  find_product (Z.of_N pid) (Db.products (World.db w)) = Some p →
  (add_to_cart pid r w).1 = Returns (redirect (referrer_or_index r)) ∧
  match Dict.lookup (cart_of w) (cart_key pid) with
  | Some n =>
      Dict.lookup (cart_of (add_to_cart pid r w).2) (cart_key pid)
        = Some (n + Z.max 1 q) ∧
      Dict.keys (cart_of (add_to_cart pid r w).2) = Dict.keys (cart_of w)
  | None =>
      cart_of (add_to_cart pid r w).2 = cart_of w ++ [(cart_key pid, Z.max 1 q)]
  end ∧
  ∀ k, k ≠ cart_key pid →
    Dict.lookup (cart_of (add_to_cart pid r w).2) k = Dict.lookup (cart_of w) k.
Proof.
  intros Hq Hp. rewrite (add_to_cart_run pid r w q p Hq Hp). cbn [fst snd].
  rewrite cart_of_flash, cart_of_with_cart. split; [done|]. split.
  - unfold Dict.get. destruct (Dict.lookup (cart_of w) (cart_key pid)) as [n|] eqn:Hn.
    + split; [apply lookup_set_eq|]. apply set_keys_present. by rewrite Hn.
    + simpl. by apply set_fresh.
  - intros k Hk. by apply lookup_set_ne.
Qed.

(** C7, the scenario: adding product 5 with [qty=-3] to a new session
    stores quantity 1. *)
Lemma add_stores_clamped_quantity_witness :
  cart_of (add_to_cart 5 (post [("qty", "-3")]) shop_new).2 = [(Some "5", 1)].
Proof.
  destruct (add_stores_clamped_quantity 5 (post [("qty", "-3")]) shop_new
              (-3) headphones eq_refl eq_refl) as (_ & H & _).
  exact H.
Defined.

(** C7, an existing entry: adding 4 more of product 5 to a cart that holds
    two of them gives six, in place. *)
Example add_increments_existing :
  cart_of (add_to_cart 5 (post [("qty", "4")])
             (shop_with [(Some "5", 2); (Some "7", 1)])).2
  = [(Some "5", 6); (Some "7", 1)].
Proof. reflexivity. Qed.

(** C10 fails in its last clause: [add_to_cart] does not answer 404 for
    every unknown product.  For the id 2^63, which no product has, the
    lookup raises the engine's [OverflowError] before any 404 is decided;
    the cart is untouched, as the claim says. *)
Lemma add_to_cart_beyond_int64 :
  find_product (2 ^ 63) (Db.products shop) = None ∧
  add_to_cart (2 ^ 63) (post [("qty", "3")]) shop_new
  = (Raises OverflowError, shop_new).
Proof. split; vm_compute; reflexivity. Qed.

(** C10, amended: [POST /cart] with [action=update] and a quantity above 0
    is insert-or-set.  For every string [pid] that is not a key of the cart
    it appends the entry [cart[pid] = qty], whatever the catalog holds: the
    products are not consulted.  [add_to_cart], in contrast, looks the
    product up first: for an id the catalog does not have it raises and
    leaves the world as it was, the 404 when the id fits 64 bits and the
    engine's [OverflowError] when it does not. *)
Theorem update_inserts_without_catalog_check (r : Request.t) (w : World.t)
    (pid : string) (q : Z) :
  Request.method r = POST →
  form_get r "action" = Some "update" →
  form_get r "pid" = Some pid →
  int_field r "qty" 1 = Returns q →
  0 < q →
  Dict.lookup (cart_of w) (Some pid) = None →
  cart_of (cart_view r w).2 = cart_of w ++ [(Some pid, q)] ∧
  ∀ (n : N) (r' : Request.t) (q' : Z),
    int_field r' "qty" 1 = Returns q' →
    find_product (Z.of_N n) (Db.products (World.db w)) = None →
    add_to_cart n r' w
    = (Raises (if in_int64 (Z.of_N n) then HTTP404 else OverflowError), w).
Proof.
  intros Hm Ha Hpid Hq Hpos Hfresh. split.
  - rewrite (cart_view_update r w q Hm Ha Hq), Hpid.
    rewrite decide_False by lia. rewrite Z.max_r by lia. by apply set_fresh.
  - intros n r' q'. apply add_to_cart_404.
Qed.

(** C10, amended, at product id 99, which the shop does not sell: the
    update files it, [add_to_cart] answers 404. *)
Lemma update_inserts_without_catalog_check_witness :
  find_product 99 (Db.products shop) = None ∧
  cart_of (cart_view (post (update_form "99" "3")) (shop_with [(Some "5", 2)])).2
  = [(Some "5", 2); (Some "99", 3)] ∧
  add_to_cart 99 (post [("qty", "3")]) (shop_with [(Some "5", 2)])
  = (Raises HTTP404, shop_with [(Some "5", 2)]).
Proof.
  split; [reflexivity|].
  destruct (update_inserts_without_catalog_check
              (post (update_form "99" "3")) (shop_with [(Some "5", 2)])
              "99" 3 eq_refl eq_refl eq_refl eq_refl ltac:(lia) eq_refl)
    as [Hupd Hadd].
  split; [exact Hupd|].
  exact (Hadd 99%N (post [("qty", "3")]) 3 eq_refl eq_refl).
Defined.

(** C6 fails when the product is already in the cart: adding one more of
    product 5 to the cart [{"5": 2}] and then updating it to 0 leaves the
    empty cart, not [{"5": 2}]. *)
Lemma add_then_zero_drops_existing_entry :
  let w := shop_with [(Some "5", 2)] in
  let w1 := (add_to_cart 5 (post [("qty", "1")]) w).2 in
  let w2 := (cart_view (post (update_form "5" "0")) w1).2 in
  cart_of w = [(Some "5", 2)] ∧ cart_of w1 = [(Some "5", 3)] ∧
  cart_of w2 = [] ∧ cart_of w2 ≠ cart_of w.
Proof. repeat split; try reflexivity. discriminate. Qed.

(** C6, amended: for every cart that does not hold the product, every
    add request for it and a following update of that product to quantity
    0 give back the cart as it was; and with or without that condition no
    entry is left under the product's key when the cart had distinct
    keys. *)
Theorem add_then_zero_restores_cart (pid : N) (r1 r2 : Request.t)
    (w : World.t) :
  Request.method r2 = POST →
  form_get r2 "action" = Some "update" →
  form_get r2 "pid" = cart_key pid →
  int_field r2 "qty" 1 = Returns 0 →
  Dict.wf (cart_of w) →
  (Dict.lookup (cart_of w) (cart_key pid) = None →
   cart_of (cart_view r2 (add_to_cart pid r1 w).2).2 = cart_of w) ∧
  Dict.lookup (cart_of (cart_view r2 (add_to_cart pid r1 w).2).2) (cart_key pid)
    = None.
Proof.
  intros Hm Ha Hpid Hq Hwf.
  rewrite (cart_view_update r2 _ 0 Hm Ha Hq), Hpid. simpl.
  destruct (add_to_cart_cart pid r1 w) as [->|[q ->]]; split.
  - apply pop_absent.
  - by apply lookup_pop_eq.
  - apply pop_set_fresh.
  - by apply lookup_pop_eq, wf_set.
Qed.

(** C6, amended, on a cart that holds product 7 only: add three of
    product 5, update product 5 to 0, and the cart is [{"7": 1}] again. *)
Lemma add_then_zero_restores_cart_witness :
  let w := shop_with [(Some "7", 1)] in
  cart_of (add_to_cart 5 (post [("qty", "3")]) w).2
    = [(Some "7", 1); (Some "5", 3)] ∧
  cart_of (cart_view (post (update_form "5" "0"))
             (add_to_cart 5 (post [("qty", "3")]) w).2).2 = cart_of w.
Proof.
  split; [reflexivity|].
  refine (proj1 (add_then_zero_restores_cart 5 (post [("qty", "3")])
                   (post (update_form "5" "0")) (shop_with [(Some "7", 1)])
                   eq_refl eq_refl eq_refl eq_refl _) eq_refl).
  unfold Dict.wf. apply NoDup_singleton.
Defined.

(** ** The cart calculator *)

Lemma find_product_id i K p : find_product i K = Some p → Product.id p = i.
Proof.
  intros H. apply find_some in H as [_ H]. by apply bool_decide_eq_true in H.
Qed.

Lemma find_product_elem i K p : find_product i K = Some p → p ∈ K.
Proof. intros H. apply find_some in H as [H _]. by apply list_elem_of_In. Qed.
















(** The scenario of the contract as it is written: the cart [{"5": 2}],
    product 5 at 100.0. *)
Example cart_items_scenario :
  (cart_items (shop_with [(Some "5", 2)])).1
  = Returns ([LineItem.mk headphones 2 (Py.lit 200)], Py.lit 200) ∧
  (cart_items shop_new).1 = Returns ([], Py.fzero).
Proof. split; vm_compute; reflexivity. Qed.

(** ** Checkout *)



(** The rows a query fetches are rows of the table, in table order. *)
Lemma products_in_sublist ids K ps :
  products_in ids K = Returns ps → sublist ps K.
Proof.
  unfold products_in. destruct ids as [|i0 ids'].
  - intros [= <-]. apply sublist_nil_l.
  - destruct (forallb in_int64 (i0 :: ids')); [|done]. intros [= <-].
    apply sublist_filter.
Qed.





Lemma checkout_empty r w total :
  Request.method r = POST →
  cart_calc (Db.products (World.db w)) (cart_of w) = Returns ([], total) →
  checkout r w = (Returns (redirect (url_for "index")),
                  (flash "Your cart is empty." "warning" (touch w)).2).
Proof.
  intros Hm Hc. unfold checkout. run. rewrite cart_items_run, Hc.
  by rewrite decide_True.
Qed.

Lemma checkout_commit r w items total :
  Request.method r = POST →
  cart_calc (Db.products (World.db w)) (cart_of w) = Returns (items, total) →
  items ≠ [] →
  checkout r w =
    if Request.commit_ok r then
      (Returns (redirect (url_for "index")),
       (flash ("Order #" +:+ Py.str (Order.id (placed_order r w items total))
               +:+ " placed successfully!") "success"
          (with_cart [] (with_db (add_order (placed_order r w items total))
                           (touch w)))).2)
    else (Raises SQLAlchemyError, touch w).
Proof.
  intros Hm Hc Hne. unfold checkout. run. rewrite cart_items_run, Hc.
  rewrite decide_True by done. destruct items as [|it items]; [done|].
  by destruct (Request.commit_ok r).
Qed.




(** C3: in a checkout POST of a cart that resolves to at least one item,
    the cart is cleared only when the order has been persisted.  If the
    commit succeeds, the order is appended to the stored orders, the cart
    is emptied and the flashed message reports the new order's id.  If the
    commit fails, the handler raises, and the cart mapping, the database
    and the flashed messages are left as they were, so the checkout can be
    sent again. *)
Theorem checkout_persists_then_clears (r : Request.t) (w : World.t)
    (items : list LineItem.t) (total : Py.float) :
  Request.method r = POST →
  (cart_items w).1 = Returns (items, total) →
  items ≠ [] →
  if Request.commit_ok r then
    (checkout r w).1 = Returns (redirect (url_for "index")) ∧
    Db.orders (World.db (checkout r w).2)
      = Db.orders (World.db w) ++ [placed_order r w items total] ∧
    cart_of (checkout r w).2 = [] ∧
    flashes_of (checkout r w).2
      = flashes_of w ++
        [("success", "Order #" +:+ Py.str (Order.id (placed_order r w items total))
                     +:+ " placed successfully!")]
  else
    (checkout r w).1 = Raises SQLAlchemyError ∧
    cart_of (checkout r w).2 = cart_of w ∧
    World.db (checkout r w).2 = World.db w ∧
    flashes_of (checkout r w).2 = flashes_of w.
Proof.
  intros Hm Hc Hne. rewrite cart_items_run in Hc. simpl in Hc.
  rewrite (checkout_commit r w items total Hm Hc Hne).
  by destruct (Request.commit_ok r).
Qed.

(** C3 on the cart [{"5": 2}]: with a failing commit the cart is still
    [{"5": 2}] and no order is stored; with a working one, order 1 is
    stored and the cart is empty. *)
Lemma checkout_persists_then_clears_witness :
  ((checkout (post_failing []) (shop_with [(Some "5", 2)])).1
     = Raises SQLAlchemyError ∧
   cart_of (checkout (post_failing []) (shop_with [(Some "5", 2)])).2
     = [(Some "5", 2)]) ∧
  (cart_of (checkout (post []) (shop_with [(Some "5", 2)])).2 = [] ∧
   flashes_of (checkout (post []) (shop_with [(Some "5", 2)])).2
     = [("success", "Order #1 placed successfully!")]).
Proof.
  pose proof (checkout_persists_then_clears (post_failing [])
                (shop_with [(Some "5", 2)])
                [LineItem.mk headphones 2 (Py.lit 200)] (Py.lit 200)
                eq_refl eq_refl ltac:(discriminate)) as Hfail.
  pose proof (checkout_persists_then_clears (post [])
                (shop_with [(Some "5", 2)])
                [LineItem.mk headphones 2 (Py.lit 200)] (Py.lit 200)
                eq_refl eq_refl ltac:(discriminate)) as Hok.
  simpl in Hfail, Hok.
  destruct Hfail as (H1 & H2 & _), Hok as (_ & _ & H3 & H4).
  repeat split; assumption.
Defined.

(** ** Orders and their totals *)

Lemma fmul_comm x y : Py.fmul x y = Py.fmul y x.
Proof.
  unfold Py.fmul, SFmul.
  destruct x as [sx|sx| |sx mx ex], y as [sy|sy| |sy my ey];
    rewrite ?(xorb_comm sx sy), ?(Pos.mul_comm mx my), ?(Z.add_comm ex ey);
    reflexivity.
Qed.

(** [qty * price] and [price * qty] are the same float, or raise alike. *)
Lemma int_mul_f_comm q x : Py.int_mul_f q x = Py.fmul_int x q.
Proof.
  unfold Py.int_mul_f, Py.fmul_int.
  destruct (Py.float_of_int q); simpl; [|done]. by rewrite fmul_comm.
Qed.

Lemma snapshot_sum_snoc its it acc t x :
  snapshot_sum its acc = Returns t →
  Py.int_mul_f (OrderItem.qty it) (OrderItem.price it) = Returns x →
  snapshot_sum (its ++ [it]) acc = Returns (Py.fadd t x).
Proof.
  intros Hs Hx. revert acc Hs. induction its as [|it0 its IH]; intros acc; simpl.
  - intros [= ->]. by rewrite Hx.
  - destruct (Py.int_mul_f (OrderItem.qty it0) _); simpl; [|done]. apply IH.
Qed.

(** The loop keeps its running total equal to the sum over the snapshots
    of the lines gathered so far. *)
Lemma cart_loop_consistent (by_id : gmap Z Product.t) (c : Cart)
    items total items' total' :
  snapshot_sum (order_item <$> items) Py.fzero = Returns total →
  cart_loop by_id c items total = Returns (items', total') →
  snapshot_sum (order_item <$> items') Py.fzero = Returns total'.
Proof.
  revert items total. induction c as [|[k q] c IH]; intros items total Hs; simpl.
  - by intros [= <- <-].
  - destruct (int_of_key k) as [i|]; simpl; [|done].
    destruct (by_id !! i) as [p|]; [|by apply IH].
    destruct (Py.fmul_int (Product.price p) q) as [x|] eqn:Hx; simpl; [|done].
    apply IH. rewrite fmap_app. apply snapshot_sum_snoc; [done|].
    simpl. by rewrite int_mul_f_comm.
Qed.

Lemma index_foldl_elem (K : list Product.t) (m : gmap Z Product.t) i p :
  foldl (λ m p, <[Product.id p := p]> m) m K !! i = Some p →
  m !! i = Some p ∨ (p ∈ K ∧ Product.id p = i).
Proof.
  revert m. induction K as [|p0 K IH]; intros m; csimpl; [auto|].
  intros [Hm|[Hp Hi]]%IH.
  - destruct (decide (Product.id p0 = i)) as [<-|Hne].
    + rewrite lookup_insert_eq in Hm. injection Hm as ->. right.
      split; [apply elem_of_cons; auto | done].
    + rewrite lookup_insert_ne in Hm by done. auto.
  - right. split; [apply elem_of_cons; auto | done].
Qed.

Lemma by_id_elem (K : list Product.t) ids ps i p :
  products_in ids K = Returns ps →
  index_by_id ps !! i = Some p → p ∈ K ∧ Product.id p = i.
Proof.
  intros Hps [Hm|[Hp Hi]]%index_foldl_elem; [by rewrite lookup_empty in Hm|].
  split; [|done]. eapply elem_of_sublist; [exact Hp|].
  by apply (products_in_sublist ids).
Qed.

(** Every line the loop gathers carries a product of the table. *)
Lemma cart_loop_products (by_id : gmap Z Product.t) (K : list Product.t)
    (c : Cart)
    items total items' total' :
  (∀ i p, by_id !! i = Some p → p ∈ K) →
  Forall (λ it, LineItem.product it ∈ K) items →
  cart_loop by_id c items total = Returns (items', total') →
  Forall (λ it, LineItem.product it ∈ K) items'.
Proof.
  intros Hby. revert items total.
  induction c as [|[k q] c IH]; intros items total Hit; simpl.
  - by intros [= <- <-].
  - destruct (int_of_key k) as [i|]; simpl; [|done].
    destruct (by_id !! i) as [p|] eqn:Hp; [|by apply IH].
    destruct (Py.fmul_int (Product.price p) q) as [x|]; simpl; [|done].
    apply IH. apply Forall_app. split; [done|].
    repeat constructor. simpl. eauto.
Qed.

(** What [cart_items()] returns makes a consistent order of catalog
    snapshots. *)
Lemma cart_calc_order K c items total :
  cart_calc K c = Returns (items, total) →
  snapshot_sum (order_item <$> items) Py.fzero = Returns total ∧
  Forall (from_catalog K) (order_item <$> items).
Proof.
  unfold cart_calc. destruct (int_keys (Dict.keys c)) as [ids|]; simpl; [|done].
  destruct (products_in ids K) as [ps|] eqn:Hps; simpl; [|done].
  intros Hloop. split.
  - eapply cart_loop_consistent; [|exact Hloop]. done.
  - apply Forall_fmap.
    eapply Forall_impl;
      [eapply (cart_loop_products _ K); [| |exact Hloop]|].
    + intros i p Hp. by apply (by_id_elem K ids ps) in Hp as [? _].
    + constructor.
    + intros it Hit. by exists (LineItem.product it).
Qed.

(** One checkout: the stored orders stay, or grow by one consistent order
    of catalog snapshots; the products stay. *)
Lemma checkout_db r w :
  Db.products (World.db (checkout r w).2) = Db.products (World.db w) ∧
  (Db.orders (World.db (checkout r w).2) = Db.orders (World.db w) ∨
   ∃ o, Db.orders (World.db (checkout r w).2) = Db.orders (World.db w) ++ [o] ∧
        order_consistent o ∧
        Forall (from_catalog (Db.products (World.db w))) (Order.items_json o)).
Proof.
  destruct (cart_calc (Db.products (World.db w)) (cart_of w))
    as [[items total]|e] eqn:Hc.
  - destruct (decide (Request.method r = POST)) as [Hm|Hm].
    + destruct items as [|it items].
      * rewrite (checkout_empty r w total Hm Hc). split; [done|by left].
      * rewrite (checkout_commit r w _ total Hm Hc) by done.
        destruct (Request.commit_ok r); [|split; [done|by left]].
        split; [done|]. right. eexists. split; [reflexivity|].
        by apply cart_calc_order in Hc.
    + unfold checkout. run. rewrite cart_items_run, Hc.
      rewrite decide_False by done. split; [done|by left].
  - unfold checkout. run. rewrite cart_items_run, Hc. split; [done|by left].
Qed.

(** ** What each handler can change *)

(** Rendering the cart after a step [m] keeps the world [m] left. *)
Lemma then_cart_items (m : M unit) tpl w :
  cart_of ((m ;; '(items, total) ← cart_items;
            render (render_cart tpl items total)) w).2 = cart_of (m w).2 ∧
  World.db ((m ;; '(items, total) ← cart_items;
             render (render_cart tpl items total)) w).2 = World.db (m w).2.
Proof.
  run. destruct (m w) as [[[]|e] w1]; simpl; [|done].
  rewrite cart_items_run. destruct (cart_calc _ _) as [[??]|]; [|done].
  by rewrite render_run.
Qed.

Lemma add_to_cart_db pid r w : World.db (add_to_cart pid r w).2 = World.db w.
Proof.
  unfold add_to_cart, get_or_404. run.
  destruct (int_field r "qty" 1) as [q|]; simpl; [|done].
  destruct (find_product _ _) as [p|]; simpl;
    [|by destruct (in_int64 (Z.of_N pid))].
  by rewrite get_cart_run.
Qed.

Lemma cart_view_db r w : World.db (cart_view r w).2 = World.db w.
Proof.
  unfold cart_view. rewrite (proj2 (then_cart_items _ _ w)). run.
  case_decide; [|done]. rewrite get_cart_run.
  case_decide; [|by case_decide].
  destruct (int_field r "qty" 1) as [q|]; simpl; [|done]. by case_decide.
Qed.

(** [POST /cart] keeps the cart, empties it, pops a key, or sets a key to
    a quantity of at least 1. *)
Lemma cart_view_cart r w :
  cart_of (cart_view r w).2 = cart_of w ∨
  cart_of (cart_view r w).2 = [] ∨
  (∃ k, cart_of (cart_view r w).2 = Dict.pop (cart_of w) k) ∨
  (∃ k q, 1 ≤ q ∧ cart_of (cart_view r w).2 = Dict.set (cart_of w) k q).
Proof.
  unfold cart_view. rewrite (proj1 (then_cart_items _ _ w)). run.
  case_decide; [|by left]. rewrite get_cart_run.
  case_decide; [|case_decide; [right|]; by left].
  destruct (int_field r "qty" 1) as [q|]; simpl; [|by left].
  case_decide as Hq; simpl.
  - right. right. left. by eexists.
  - right. right. right. exists (form_get r "pid"), (Z.max 0 q).
    split; [lia|done].
Qed.

Lemma checkout_cart r w :
  cart_of (checkout r w).2 = cart_of w ∨ cart_of (checkout r w).2 = [].
Proof.
  unfold checkout. run. rewrite cart_items_run.
  destruct (cart_calc _ _) as [[items total]|]; simpl; [|by left].
  case_decide; [|by left]. destruct items; [by left|].
  destruct (Request.commit_ok r); simpl; [by right | by left].
Qed.

Lemma register_frame gph salt r w :
  cart_of (register gph salt r w).2 = cart_of w ∧
  Db.products (World.db (register gph salt r w).2) = Db.products (World.db w) ∧
  Db.orders (World.db (register gph salt r w).2) = Db.orders (World.db w).
Proof.
  unfold register. run. case_decide; [|by rewrite render_run].
  destruct (form_item r "name"); simpl; [|done].
  destruct (form_item r "email"); simpl; [|done].
  destruct (form_item r "password"); simpl; [|done].
  destruct (find_user_by_email _ _); simpl; [done|].
  by destruct (Request.commit_ok r).
Qed.

Lemma cart_inv_nil : cart_inv [].
Proof. split; [apply NoDup_nil_2 | constructor]. Qed.

Lemma cart_inv_set (c : Cart) k q : cart_inv c → 1 ≤ q → cart_inv (Dict.set c k q).
Proof.
  intros [Hwf Hq] Hle. split; [by apply wf_set | by apply Forall_set].
Qed.

Lemma cart_inv_pop (c : Cart) k : cart_inv c → cart_inv (Dict.pop c k).
Proof. intros [Hwf Hq]. split; [by apply wf_pop | by apply Forall_pop]. Qed.

(** The quantity [add_to_cart] writes is at least 1 when the stored ones
    are. *)
Lemma add_quantity_positive (c : Cart) k q :
  cart_inv c → 1 ≤ Dict.get c k 0 + Z.max 1 q.
Proof.
  intros [_ Hq]. unfold Dict.get.
  destruct (Dict.lookup c k) as [n|] eqn:Hn; simpl; [|lia].
  pose proof (lookup_Forall _ c k n Hq Hn) as Hn1. simpl in Hn1. lia.
Qed.

Lemma cart_of_reload w : cart_of (reload w) = reload_cart (cart_of w).
Proof. by destruct w as [[[c|] fl u] d]. Qed.

(** The trip through the cookie keeps the invariant. *)
Lemma reload_cart_inv (c : Cart) : cart_inv c → cart_inv (reload_cart c).
Proof.
  intros [_ Hq]. unfold reload_cart.
  assert (Hs : Forall (λ e : key * Z, 1 ≤ e.2) (merge_sort key_le c)).
  { by rewrite merge_sort_Permutation. }
  revert Hs. generalize (merge_sort key_le c). intros l Hl.
  assert (Hgen : ∀ d : Cart, cart_inv d →
            cart_inv (foldl (λ d e, Dict.set d (json_key e.1) e.2) d l)).
  { induction Hl as [|[k q] l Hk Hl IH]; intros d Hd; [done|].
    simpl. by apply IH, cart_inv_set. }
  apply Hgen, cart_inv_nil.
Qed.

Lemma db_send_back w w' : World.db (send_back w w') = World.db w'.
Proof. unfold send_back. by destruct (writable _). Qed.

(** The cart the next request finds keeps the invariant when the carts
    before and after the request do. *)
Lemma send_back_cart_inv w w' :
  cart_inv (cart_of w) → cart_inv (cart_of w') → cart_inv (cart_of (send_back w w')).
Proof.
  intros Hw Hw'. unfold send_back. destruct (writable _); [|done].
  rewrite cart_of_reload. by apply reload_cart_inv.
Qed.

(** The cookie sorts the cart by key and writes a lone [None] as
    ["null"]; a [None] key beside another one cannot be written. *)
Example reload_cart_ex :
  reload_cart [(Some "7", 1); (Some "10", 3); (Some "5", 2)]
    = [(Some "10", 3); (Some "5", 2); (Some "7", 1)] ∧
  reload_cart [(None, 2)] = [(Some "null", 2)] ∧
  writable [(Some "5", 1); (None, 2)] = false.
Proof. repeat split; vm_compute; reflexivity. Qed.

(** An update without [pid] on the cart [{"5": 1}] leaves a session that
    cannot be written: the next request finds the cart of before. *)
Example unwritable_session_is_kept :
  cart_of (cart_view (post [("action", "update"); ("qty", "2")])
             (shop_with [(Some "5", 1)])).2 = [(Some "5", 1); (None, 2)] ∧
  cart_of (send_back (shop_with [(Some "5", 1)])
             (cart_view (post [("action", "update"); ("qty", "2")])
                (shop_with [(Some "5", 1)])).2) = [(Some "5", 1)].
Proof. split; vm_compute; reflexivity. Qed.

Section Reachable.
Variable generate_password_hash : string → string → string.

Lemma handle_cart_inv (c : call) (w : World.t) :
  cart_inv (cart_of w) → cart_inv (cart_of (handle generate_password_hash c w).2).
Proof.
  intros Hinv. destruct c as [pid r|r|r|salt r]; simpl.
  - destruct (add_to_cart_cart pid r w) as [->|[q ->]]; [done|].
    by apply cart_inv_set, add_quantity_positive.
  - destruct (cart_view_cart r w) as [->|[->|[[k ->]|(k & q & Hq & ->)]]];
      auto using cart_inv_nil, cart_inv_set, cart_inv_pop.
  - destruct (checkout_cart r w) as [->| ->]; auto using cart_inv_nil.
  - by rewrite (proj1 (register_frame _ salt r w)).
Qed.

Lemma serve_cart_inv (cs : list call) (w : World.t) :
  cart_inv (cart_of w) → cart_inv (cart_of (serve generate_password_hash cs w)).
Proof.
  revert w. induction cs as [|c cs IH]; intros w Hinv; [done|].
  simpl. by apply IH, send_back_cart_inv, handle_cart_inv.
Qed.

Lemma handle_products (c : call) (w : World.t) :
  Db.products (World.db (handle generate_password_hash c w).2)
  = Db.products (World.db w).
Proof.
  destruct c as [pid r|r|r|salt r]; simpl.
  - by rewrite add_to_cart_db.
  - by rewrite cart_view_db.
  - apply checkout_db.
  - apply register_frame.
Qed.

Lemma handle_orders_ok (c : call) (w : World.t) :
  Forall (order_ok (Db.products (World.db w))) (Db.orders (World.db w)) →
  Forall (order_ok (Db.products (World.db w)))
         (Db.orders (World.db (handle generate_password_hash c w).2)).
Proof.
  intros Hok. destruct c as [pid r|r|r|salt r]; simpl.
  - by rewrite add_to_cart_db.
  - by rewrite cart_view_db.
  - destruct (checkout_db r w) as [_ [->|(o & -> & Ho & Hcat)]]; [done|].
    apply Forall_app. split; [done|]. by repeat constructor.
  - by rewrite (proj2 (proj2 (register_frame _ salt r w))).
Qed.

End Reachable.

(** ** Invariants of the running shop *)

(** C4: every order in the database after any sequence of requests, from
    a database whose orders are consistent (none, for a new shop), has a
    stored total equal to the sum over its own item snapshots of
    [qty * price], and each snapshot carries the id, title and price of a
    product of the catalog: the price is read from the product table when
    the order is placed, and no field of the request enters it.  The
    catalog itself is never changed by a request. *)
Theorem orders_total_is_sum_of_snapshots
    (generate_password_hash : string → string → string)
    (cs : list call) (w : World.t) :
  Forall (order_ok (Db.products (World.db w))) (Db.orders (World.db w)) →
  Db.products (World.db (serve generate_password_hash cs w))
    = Db.products (World.db w) ∧
  Forall (order_ok (Db.products (World.db w)))
         (Db.orders (World.db (serve generate_password_hash cs w))).
Proof.
  revert w. induction cs as [|c cs IH]; intros w Hok; [done|].
  simpl. pose proof (handle_products generate_password_hash c w) as HK.
  pose proof (handle_orders_ok generate_password_hash c w Hok) as Hok'.
  rewrite <- HK, <- (db_send_back w) in Hok'.
  destruct (IH _ Hok') as [HK' Hall].
  rewrite db_send_back, HK in HK', Hall. done.
Qed.

(** C4 on a session that adds two of product 5 and checks out: one order,
    of one snapshot [{product_id: 5, qty: 2, price: 100.0}], with total
    200.0, which is consistent. *)
Lemma orders_total_is_sum_of_snapshots_witness :
  Db.orders (World.db
    (serve demo_hash [DoAddToCart 5 (post [("qty", "2")]); DoCheckout (post [])]
       shop_new))
  = [Order.mk 1 None
       [OrderItem.mk 5 "Wireless Headphones" 2 (Py.lit 100)] (Py.lit 200) 0] ∧
  Forall (order_ok (Db.products shop))
    (Db.orders (World.db
      (serve demo_hash [DoAddToCart 5 (post [("qty", "2")]); DoCheckout (post [])]
         shop_new))).
Proof.
  split; [vm_compute; reflexivity|].
  exact (proj2 (orders_total_is_sum_of_snapshots demo_hash
                  [DoAddToCart 5 (post [("qty", "2")]); DoCheckout (post [])]
                  shop_new (Forall_nil_2 _))).
Defined.

(** The scenario of the contract: checking out the cart [{"5": 2}] stores
    the order above and the next read of the cart is empty. *)
Example checkout_scenario :
  Db.orders (World.db (checkout (post []) (shop_with [(Some "5", 2)])).2)
  = [Order.mk 1 None
       [OrderItem.mk 5 "Wireless Headphones" 2 (Py.lit 100)] (Py.lit 200) 0] ∧
  cart_of (checkout (post []) (shop_with [(Some "5", 2)])).2 = [].
Proof. split; vm_compute; reflexivity. Qed.

(** C8: starting from the empty cart, after any sequence of requests (add,
    update, clear, and also checkout and register) the cart has distinct
    keys and every stored quantity is at least 1; and an update of a key to
    a quantity of 0 or less leaves no entry under that key. *)
Theorem cart_invariant_preserved
    (generate_password_hash : string → string → string)
    (cs : list call) (w : World.t) :
  cart_of w = [] →
  cart_inv (cart_of (serve generate_password_hash cs w)) ∧
  ∀ (r : Request.t) (q : Z),
    Request.method r = POST →
    form_get r "action" = Some "update" →
    int_field r "qty" 1 = Returns q →
    q ≤ 0 →
    Dict.lookup (cart_of (cart_view r (serve generate_password_hash cs w)).2)
                (form_get r "pid") = None.
Proof.
  intros Hnil.
  assert (Hinv : cart_inv (cart_of (serve generate_password_hash cs w))).
  { apply serve_cart_inv. rewrite Hnil. apply cart_inv_nil. }
  split; [done|]. intros r q Hm Ha Hq Hle.
  rewrite (cart_view_update r _ q Hm Ha Hq).
  rewrite decide_True by lia. apply lookup_pop_eq, Hinv.
Qed.

(** C8 on a new session that adds product 5 with [qty=-3], sets product 7
    to 4, adds 2 more of product 5 and sets product 7 to 0: the cart is
    [{"5": 3}]. *)
Lemma cart_invariant_preserved_witness :
  cart_of (serve demo_hash
             [DoAddToCart 5 (post [("qty", "-3")]);
              DoCartView (post (update_form "7" "4"));
              DoAddToCart 5 (post [("qty", "2")]);
              DoCartView (post (update_form "7" "0"))] shop_new)
  = [(Some "5", 3)] ∧
  cart_inv (cart_of (serve demo_hash
             [DoAddToCart 5 (post [("qty", "-3")]);
              DoCartView (post (update_form "7" "4"));
              DoAddToCart 5 (post [("qty", "2")]);
              DoCartView (post (update_form "7" "0"))] shop_new)).
Proof.
  split; [vm_compute; reflexivity|].
  exact (proj1 (cart_invariant_preserved demo_hash
                  [DoAddToCart 5 (post [("qty", "-3")]);
                   DoCartView (post (update_form "7" "4"));
                   DoAddToCart 5 (post [("qty", "2")]);
                   DoCartView (post (update_form "7" "0"))] shop_new eq_refl)).
Defined.

(** ** Malformed quantities *)

(** C5 fails: a quantity that is not an integer literal is neither clamped
    nor answered with a warning.  [int()] raises [ValueError] in both
    handlers, nothing catches it, and no message is flashed. *)
Lemma malformed_quantity_crashes :
  add_to_cart 5 (post [("qty", "abc")]) shop_new = (Raises ValueError, shop_new) ∧
  (cart_view (post (update_form "5" "abc")) (shop_with [(Some "5", 2)])).1
    = Raises ValueError ∧
  flashes_of (cart_view (post (update_form "5" "abc"))
                (shop_with [(Some "5", 2)])).2 = [].
Proof. repeat split; vm_compute; reflexivity. Qed.

(** C5, amended: for every quantity field that [int()] does not accept,
    [add_to_cart] raises [ValueError] and leaves the world exactly as it
    was, and [POST /cart] with [action=update] raises [ValueError] and
    leaves the cart mapping, the flashed messages and the database as they
    were: the input is rejected, by an exception that no handler catches
    and without a warning. *)
Theorem malformed_quantity_raises (pid : N) (r : Request.t) (w : World.t)
    (s : string) :
  form_get r "qty" = Some s →
  Py.int_of_str s = None →
  add_to_cart pid r w = (Raises ValueError, w) ∧
  (Request.method r = POST →
   form_get r "action" = Some "update" →
   (cart_view r w).1 = Raises ValueError ∧
   cart_of (cart_view r w).2 = cart_of w ∧
   flashes_of (cart_view r w).2 = flashes_of w ∧
   World.db (cart_view r w).2 = World.db w).
Proof.
  intros Hs Hbad.
  assert (Hq : int_field r "qty" 1 = Raises ValueError).
  { unfold int_field, py_int. by rewrite Hs, Hbad. }
  split.
  - unfold add_to_cart. run. by rewrite Hq.
  - intros Hm Ha. unfold cart_view. run.
    rewrite Hm, Ha, !decide_True, get_cart_run, Hq by done. done.
Qed.

(** C5, amended, at [qty=1.5] for product 5 and the cart [{"5": 2}]. *)
Lemma malformed_quantity_raises_witness :
  add_to_cart 5 (post (update_form "5" "1.5")) (shop_with [(Some "5", 2)])
    = (Raises ValueError, shop_with [(Some "5", 2)]) ∧
  cart_of (cart_view (post (update_form "5" "1.5"))
             (shop_with [(Some "5", 2)])).2 = [(Some "5", 2)].
Proof.
  destruct (malformed_quantity_raises 5 (post (update_form "5" "1.5"))
              (shop_with [(Some "5", 2)]) "1.5" eq_refl eq_refl) as [Hadd Hupd].
  destruct (Hupd eq_refl eq_refl) as (_ & Hcart & _).
  split; [exact Hadd | exact Hcart].
Defined.

(** ** Registration *)

Lemma register_run gph salt r w name email password :
  Request.method r = POST →
  form_get r "name" = Some name →
  form_get r "email" = Some email →
  form_get r "password" = Some password →
  register gph salt r w =
    match find_user_by_email (normalize_email email) (Db.users (World.db w)) with
    | Some _ =>
        (Returns (redirect (url_for "register")),
         (flash "Email already registered." "warning" w).2)
    | None =>
        if Request.commit_ok r then
          (Returns (redirect (url_for "login")),
           (flash "Registration successful. Please login." "success"
              (with_db (add_user (new_user gph salt w name email password)) w)).2)
        else (Raises SQLAlchemyError, w)
    end.
Proof.
  intros Hm Hn He Hp. unfold register, form_item. run.
  rewrite Hm, decide_True, Hn, He, Hp by done. simpl.
  fold (normalize_email email).
  destruct (find_user_by_email _ _); [done|]. simpl.
  by destruct (Request.commit_ok r).
Qed.

Lemma find_user_snoc us u :
  is_Some (find_user_by_email (User.email u) (us ++ [u])).
Proof.
  unfold find_user_by_email. induction us as [|u0 us IH]; simpl.
  - rewrite bool_decide_eq_true_2 by done. by eexists.
  - case_bool_decide; [by eexists | done].
Qed.

(** C9: for every set of users, a registration whose case-normalized
    email [email.lower().strip()] is already stored answers with the
    warning and a redirect back to the form, and changes neither the
    database nor the cart.  Otherwise, when the storage engine accepts the
    commit, it appends exactly one User, whose stored fields are the new
    id, the stripped name, the normalized email and the digest returned by
    the hashing capability (the password enters the row only through it);
    and a later registration with an email equal after normalization, such
    as [test@x.com] after [Test@x.com], is then refused. *)
Theorem register_rejects_duplicate_email
    (generate_password_hash : string → string → string)
    (salt : string) (r : Request.t) (w : World.t)
    (name email password : string) :
  Request.method r = POST →
  form_get r "name" = Some name →
  form_get r "email" = Some email →
  form_get r "password" = Some password →
  match find_user_by_email (normalize_email email) (Db.users (World.db w)) with
  | Some _ =>
      (register generate_password_hash salt r w).1
        = Returns (redirect (url_for "register")) ∧
      flashes_of (register generate_password_hash salt r w).2
        = flashes_of w ++ [("warning", "Email already registered.")] ∧
      World.db (register generate_password_hash salt r w).2 = World.db w ∧
      cart_of (register generate_password_hash salt r w).2 = cart_of w
  | None =>
      Request.commit_ok r = true →
      (register generate_password_hash salt r w).1
        = Returns (redirect (url_for "login")) ∧
      Db.users (World.db (register generate_password_hash salt r w).2)
        = Db.users (World.db w)
          ++ [new_user generate_password_hash salt w name email password] ∧
      ∀ salt' r' name' email' password',
        Request.method r' = POST →
        form_get r' "name" = Some name' →
        form_get r' "email" = Some email' →
        form_get r' "password" = Some password' →
        normalize_email email' = normalize_email email →
        (register generate_password_hash salt' r'
           (register generate_password_hash salt r w).2).1
          = Returns (redirect (url_for "register")) ∧
        World.db (register generate_password_hash salt' r'
                    (register generate_password_hash salt r w).2).2
          = World.db (register generate_password_hash salt r w).2
  end.
Proof.
  intros Hm Hn He Hp.
  rewrite (register_run _ salt r w name email password Hm Hn He Hp).
  destruct (find_user_by_email _ _) as [u|] eqn:Hfind; [done|].
  intros ->. cbn [fst snd]. split; [done|]. split; [done|].
  intros salt' r' name' email' password' Hm' Hn' He' Hp' Heq.
  rewrite (register_run _ salt' r' _ name' email' password' Hm' Hn' He' Hp').
  rewrite Heq. simpl.
  destruct (find_user_snoc (Db.users (World.db w))
              (new_user generate_password_hash salt w name email password))
    as [u Hu].
  simpl in Hu. by rewrite Hu.
Qed.

(** C9 on a new shop: [Test@x.com] registers, as user 1 with the email
    [test@x.com] and the digest of the capability; [test@x.com] is then
    refused, and the users are still that one. *)
Lemma register_rejects_duplicate_email_witness :
  Db.users (World.db
    (register demo_hash "s1" (post (register_form "Ann" "Test@x.com" "pw1"))
       shop_new).2)
  = [User.mk 1 "Ann" "test@x.com" (demo_hash "s1" "pw1")] ∧
  (register demo_hash "s2" (post (register_form "Bob" "test@x.com" "pw2"))
     (register demo_hash "s1" (post (register_form "Ann" "Test@x.com" "pw1"))
        shop_new).2).1
  = Returns (redirect "/register").
Proof.
  pose proof (register_rejects_duplicate_email demo_hash "s1"
                (post (register_form "Ann" "Test@x.com" "pw1")) shop_new
                "Ann" "Test@x.com" "pw1" eq_refl eq_refl eq_refl eq_refl) as H.
  simpl in H. destruct (H eq_refl) as (_ & Husers & Hdup).
  split; [exact Husers|].
  exact (proj1 (Hdup "s2" (post (register_form "Bob" "test@x.com" "pw2"))
                  "Bob" "test@x.com" "pw2"
                  eq_refl eq_refl eq_refl eq_refl eq_refl)).
Defined.

(** * More of the application *)

(** ** The cart page *)

Lemma set_set_same {K V : Type} `{EqDecision K} (d : Dict.t K V) k v :
  Dict.set (Dict.set d k v) k v = Dict.set d k v.
Proof.
  induction d as [|[k' v'] d IH]; simpl.
  - by rewrite decide_True.
  - case_decide as Hk; simpl.
    + by rewrite decide_True.
    + rewrite decide_False by done. by rewrite IH.
Qed.

Lemma pop_pop_same {K V : Type} `{EqDecision K} (d : Dict.t K V) k :
  Dict.wf d → Dict.pop (Dict.pop d k) k = Dict.pop d k.
Proof. intros Hwf. by apply pop_absent, lookup_pop_eq. Qed.

Lemma flashes_of_touch w : flashes_of (touch w) = flashes_of w.
Proof. done. Qed.

(** The update of [POST /cart] is idempotent: on a cart with distinct keys,
    sending the same update twice leaves the cart that sending it once
    leaves. *)
Theorem update_twice_is_update_once (r : Request.t) (w : World.t) (q : Z) :
  Request.method r = POST →
  form_get r "action" = Some "update" →
  int_field r "qty" 1 = Returns q →
  Dict.wf (cart_of w) →
  cart_of (cart_view r (cart_view r w).2).2 = cart_of (cart_view r w).2.
Proof.
  intros Hm Ha Hq Hwf.
  rewrite (cart_view_update r (cart_view r w).2 q Hm Ha Hq).
  rewrite (cart_view_update r w q Hm Ha Hq).
  case_decide.
  - by apply pop_pop_same.
  - apply set_set_same.
Qed.

Lemma update_twice_is_update_once_witness :
  cart_of (cart_view (post (update_form "5" "4"))
             (cart_view (post (update_form "5" "4"))
                (shop_with [(Some "5", 2); (Some "7", 1)])).2).2
  = cart_of (cart_view (post (update_form "5" "4"))
               (shop_with [(Some "5", 2); (Some "7", 1)])).2.
Proof.
  apply (update_twice_is_update_once (post (update_form "5" "4"))
           (shop_with [(Some "5", 2); (Some "7", 1)]) 4 eq_refl eq_refl eq_refl).
  by apply (bool_decide_unpack _).
Defined.

(** An update with a quantity above 0 of a key the cart already holds
    replaces the stored quantity by the new one, whatever it was: it does
    not add to it, the entry keeps its place, and no other entry
    changes. *)
Theorem update_replaces_quantity (r : Request.t) (w : World.t) (q n : Z) :
  Request.method r = POST →
  form_get r "action" = Some "update" →
  int_field r "qty" 1 = Returns q →
  0 < q →
  Dict.lookup (cart_of w) (form_get r "pid") = Some n →
  Dict.lookup (cart_of (cart_view r w).2) (form_get r "pid") = Some q ∧
  Dict.keys (cart_of (cart_view r w).2) = Dict.keys (cart_of w) ∧
  ∀ k, k ≠ form_get r "pid" →
    Dict.lookup (cart_of (cart_view r w).2) k = Dict.lookup (cart_of w) k.
Proof.
  intros Hm Ha Hq Hpos Hn. rewrite (cart_view_update r w q Hm Ha Hq).
  rewrite decide_False by lia. rewrite Z.max_r by lia. repeat split.
  - apply lookup_set_eq.
  - apply set_keys_present. by rewrite Hn.
  - intros k Hk. by apply lookup_set_ne.
Qed.

Lemma update_replaces_quantity_witness :
  cart_of (cart_view (post (update_form "5" "4"))
             (shop_with [(Some "5", 2); (Some "7", 1)])).2
  = [(Some "5", 4); (Some "7", 1)] ∧
  Dict.lookup (cart_of (cart_view (post (update_form "5" "4"))
                          (shop_with [(Some "5", 2); (Some "7", 1)])).2)
              (Some "5") = Some 4.
Proof.
  split; [reflexivity|].
  refine (proj1 (update_replaces_quantity (post (update_form "5" "4"))
                   (shop_with [(Some "5", 2); (Some "7", 1)]) 4 2
                   eq_refl eq_refl eq_refl _ eq_refl)).
  lia.
Defined.

(** [action=clear] always works: whatever the cart held, also keys or
    quantities on which the cart page fails, the answer is the cart page
    with no items and the total 0.0, and the cart is empty; the database
    and the flashed messages stay. *)
Theorem clear_empties_any_cart (r : Request.t) (w : World.t) :
  Request.method r = POST →
  form_get r "action" = Some "clear" →
  (cart_view r w).1 = Returns (render_cart "cart.html" [] Py.fzero) ∧
  cart_of (cart_view r w).2 = [] ∧
  World.db (cart_view r w).2 = World.db w ∧
  flashes_of (cart_view r w).2 = flashes_of w.
Proof.
  intros Hm Ha. unfold cart_view. run.
  rewrite Hm, Ha, decide_True, get_cart_run by done.
  rewrite decide_False by done. rewrite decide_True by done. done.
Qed.

Lemma clear_empties_any_cart_witness :
  (cart_items (shop_with [(None, 1); (Some "abc", 2)])).1 = Raises TypeError ∧
  (cart_view (post [("action", "clear")])
     (shop_with [(None, 1); (Some "abc", 2)])).1
  = Returns (render_cart "cart.html" [] Py.fzero).
Proof.
  split; [reflexivity|].
  exact (proj1 (clear_empties_any_cart (post [("action", "clear")])
                  (shop_with [(None, 1); (Some "abc", 2)]) eq_refl eq_refl)).
Defined.

(** A GET of the cart page or of the checkout page changes nothing a
    reader can see: the cart mapping, the database and the flashed
    messages are as before, also when the page fails to render. *)
Theorem get_pages_are_read_only (r : Request.t) (w : World.t) :
  Request.method r = GET →
  (cart_of (cart_view r w).2 = cart_of w ∧
   World.db (cart_view r w).2 = World.db w ∧
   flashes_of (cart_view r w).2 = flashes_of w) ∧
  (cart_of (checkout r w).2 = cart_of w ∧
   World.db (checkout r w).2 = World.db w ∧
   flashes_of (checkout r w).2 = flashes_of w).
Proof.
  intros Hm. split.
  - unfold cart_view. run. rewrite Hm, decide_False by done. simpl.
    rewrite cart_items_run. by destruct (cart_calc _ _) as [[??]|].
  - unfold checkout. run. rewrite cart_items_run.
    destruct (cart_calc _ _) as [[??]|]; [|done].
    by rewrite Hm, decide_False.
Qed.

Lemma get_pages_are_read_only_witness :
  cart_of (checkout (Request.mk GET [] None true 0)
             (shop_with [(Some "5", 2)])).2 = [(Some "5", 2)] ∧
  Db.orders (World.db (checkout (Request.mk GET [] None true 0)
                         (shop_with [(Some "5", 2)])).2) = [].
Proof.
  destruct (get_pages_are_read_only (Request.mk GET [] None true 0)
              (shop_with [(Some "5", 2)]) eq_refl) as [_ (Hc & Hdb & _)].
  split; [exact Hc | by rewrite Hdb].
Defined.






(** ** The cart badge *)

Lemma foldl_add_shift (l : list Z) (a : Z) : foldl Z.add a l = a + foldl Z.add 0 l.
Proof.
  revert a. induction l as [|x l IH]; intros a; simpl; [lia|].
  rewrite (IH (a + x)), (IH (0 + x)). lia.
Qed.

Lemma cart_count_cons k v (c : Cart) : cart_count ((k, v) :: c) = v + cart_count c.
Proof. unfold cart_count, Dict.values. csimpl. by rewrite foldl_add_shift. Qed.

Lemma cart_count_set (c : Cart) k v :
  cart_count (Dict.set c k v) = cart_count c - Dict.get c k 0 + v.
Proof.
  unfold Dict.get. induction c as [|[k' v'] c IH]; simpl.
  - rewrite cart_count_cons. unfold cart_count. simpl. lia.
  - case_decide as Hk; rewrite !cart_count_cons; simpl; [lia|].
    rewrite IH. lia.
Qed.

Lemma inject_cart_count_run w :
  inject_cart_count w = (Returns (cart_count (cart_of w)), touch w).
Proof. unfold inject_cart_count. run. by rewrite get_cart_run. Qed.

Lemma cart_count_ge_length (c : Cart) :
  Forall (λ e, 1 ≤ e.2) c → Z.of_nat (length c) ≤ cart_count c.
Proof.
  induction 1 as [|[k v] c Hv Hc IH]; [done|].
  rewrite cart_count_cons. simpl in *. lia.
Qed.

(** A successful [add_to_cart] raises the count in the cart badge by
    exactly [max(1, qty)], whether the product was in the cart or not. *)
Theorem add_raises_cart_count (pid : N) (r : Request.t) (w : World.t)
    (q : Z) (p : Product.t) :
  int_field r "qty" 1 = Returns q →
  find_product (Z.of_N pid) (Db.products (World.db w)) = Some p →
  (inject_cart_count w).1 = Returns (cart_count (cart_of w)) ∧
  (inject_cart_count (add_to_cart pid r w).2).1
    = Returns (cart_count (cart_of w) + Z.max 1 q).
Proof.
  intros Hq Hp. rewrite !inject_cart_count_run. cbn [fst]. split; [done|].
  rewrite (add_to_cart_run pid r w q p Hq Hp). cbn [snd].
  rewrite cart_of_flash, cart_of_with_cart, cart_count_set. f_equal. lia.
Qed.

Lemma add_raises_cart_count_witness :
  (inject_cart_count (shop_with [(Some "5", 2); (Some "7", 1)])).1 = Returns 3 ∧
  (inject_cart_count
     (add_to_cart 5 (post [("qty", "-4")])
        (shop_with [(Some "5", 2); (Some "7", 1)])).2).1 = Returns 4.
Proof.
  exact (add_raises_cart_count 5 (post [("qty", "-4")])
           (shop_with [(Some "5", 2); (Some "7", 1)]) (-4) headphones
           eq_refl eq_refl).
Defined.

(** After any sequence of shop requests from the empty cart the badge
    counts at least one per entry of the cart: it is never negative, and
    it shows 0 only when the cart is empty. *)
Theorem cart_count_counts_entries
    (generate_password_hash : string → string → string)
    (cs : list call) (w : World.t) :
  cart_of w = [] →
  Z.of_nat (length (cart_of (serve generate_password_hash cs w)))
    ≤ cart_count (cart_of (serve generate_password_hash cs w)) ∧
  (cart_count (cart_of (serve generate_password_hash cs w)) = 0 →
   cart_of (serve generate_password_hash cs w) = []).
Proof.
  intros Hnil.
  assert (Hinv : cart_inv (cart_of (serve generate_password_hash cs w))).
  { apply serve_cart_inv. rewrite Hnil. apply cart_inv_nil. }
  destruct Hinv as [_ Hq]. apply cart_count_ge_length in Hq.
  split; [done|]. intros H0.
  destruct (cart_of (serve generate_password_hash cs w)); [done|].
  simpl in Hq. lia.
Qed.

Lemma cart_count_counts_entries_witness :
  2 ≤ cart_count (cart_of (serve demo_hash
         [DoAddToCart 5 (post [("qty", "-3")]);
          DoCartView (post (update_form "7" "4"))] shop_new)).
Proof.
  exact (proj1 (cart_count_counts_entries demo_hash
                  [DoAddToCart 5 (post [("qty", "-3")]);
                   DoCartView (post (update_form "7" "4"))] shop_new eq_refl)).
Defined.

(** ** Checking out twice *)



(** ** Product page, login and logout *)

Lemma product_detail_run pid w :
  product_detail pid w =
    match find_product (Z.of_N pid) (Db.products (World.db w)) with
    | Some p => (Returns (render_product "product_detail.html" p), touch w)
    | None =>
        (Raises (if in_int64 (Z.of_N pid) then HTTP404 else OverflowError), w)
    end.
Proof.
  unfold product_detail, get_or_404. run.
  destruct (find_product _ _); simpl; [by rewrite render_run|].
  by destruct (in_int64 (Z.of_N pid)).
Qed.

(** The product page and [add_to_cart] guard on the same lookup.  The page
    of [pid] changes neither the cart mapping, nor the database, nor the
    flashed messages.  It shows a product of the catalog whose id is [pid],
    the session then holding a cart, exactly when an [add_to_cart] of [pid]
    with an integer quantity succeeds; otherwise both raise the same
    exception and leave the world as it was: the 404, or the engine's
    [OverflowError] for an id that does not fit 64 bits. *)
Theorem detail_and_add_agree (pid : N) (r : Request.t) (w : World.t) (q : Z) :
  int_field r "qty" 1 = Returns q →
  (cart_of (product_detail pid w).2 = cart_of w ∧
   World.db (product_detail pid w).2 = World.db w ∧
   flashes_of (product_detail pid w).2 = flashes_of w) ∧
  match (product_detail pid w).1 with
  | Returns (render_product _ p) =>
      Product.id p = Z.of_N pid ∧ p ∈ Db.products (World.db w) ∧
      (product_detail pid w).2 = touch w ∧
      (add_to_cart pid r w).1 = Returns (redirect (referrer_or_index r))
  | Raises e =>
      e = (if in_int64 (Z.of_N pid) then HTTP404 else OverflowError) ∧
      (product_detail pid w).2 = w ∧
      add_to_cart pid r w = (Raises e, w)
  end.
Proof.
  intros Hq. rewrite product_detail_run.
  destruct (find_product _ _) as [p|] eqn:Hp; cbn [fst snd]; split; try done.
  - split; [by apply find_product_id in Hp|].
    split; [by apply find_product_elem in Hp|]. split; [done|].
    by rewrite (add_to_cart_run pid r w q p Hq Hp).
  - split; [done|]. split; [done|]. by apply (add_to_cart_404 pid r w q).
Qed.

Lemma detail_and_add_agree_witness :
  (product_detail 5 shop_new).1
    = Returns (render_product "product_detail.html" headphones) ∧
  (product_detail 6 shop_new).1 = Raises HTTP404 ∧
  add_to_cart 6 (post [("qty", "2")]) shop_new = (Raises HTTP404, shop_new).
Proof.
  split; [reflexivity|]. split; [reflexivity|].
  exact (proj2 (proj2 (proj2 (detail_and_add_agree 6 (post [("qty", "2")])
                                shop_new 2 eq_refl)))).
Defined.

(** The page of a product on a new session leaves a session with an empty
    cart; an id beyond 64 bits is not answered 404. *)
Example product_detail_ex :
  product_detail 5 shop_new
    = (Returns (render_product "product_detail.html" headphones), shop_with []) ∧
  product_detail (2 ^ 63) shop_new = (Raises OverflowError, shop_new).
Proof. split; vm_compute; reflexivity. Qed.

Lemma login_run check args r w email password :
  Request.method r = POST →
  form_get r "email" = Some email →
  form_get r "password" = Some password →
  login check args r w =
    match find_user_by_email (normalize_email email) (Db.users (World.db w)) with
    | Some u =>
        if check (User.password_hash u) password then
          (Returns (redirect (next_or_index args)),
           (flash "Welcome back!" "success" (login_user u w).2).2)
        else (Returns (render_template "login.html"),
              touch (flash "Invalid credentials." "danger" w).2)
    | None => (Returns (render_template "login.html"),
               touch (flash "Invalid credentials." "danger" w).2)
    end.
Proof.
  intros Hm He Hp. unfold login, form_item. run.
  rewrite Hm, decide_True, He, Hp by done. simpl.
  fold (normalize_email email).
  destruct (find_user_by_email _ _) as [u|]; [|by rewrite render_run].
  destruct (check _ _); [done|]. by rewrite render_run.
Qed.

(** A failed login does not tell why it failed: with an email nobody
    registered, or with a wrong password for a registered one, the answer
    is the same login page, rendered after the same flashed message
    [Invalid credentials.], and nothing else changes: the session stays
    with the user it had, the cart mapping and the database are
    untouched. *)
Theorem login_failure_is_uniform
    (check_password_hash : string → string → bool)
    (args : list (string * string)) (r : Request.t) (w : World.t)
    (email password : string) :
  Request.method r = POST →
  form_get r "email" = Some email →
  form_get r "password" = Some password →
  (∀ u, find_user_by_email (normalize_email email) (Db.users (World.db w)) = Some u →
        check_password_hash (User.password_hash u) password = false) →
  login check_password_hash args r w
    = (Returns (render_template "login.html"),
       touch (flash "Invalid credentials." "danger" w).2) ∧
  current_user_id (login check_password_hash args r w).2 = current_user_id w ∧
  cart_of (login check_password_hash args r w).2 = cart_of w ∧
  World.db (login check_password_hash args r w).2 = World.db w.
Proof.
  intros Hm He Hp Hbad. rewrite (login_run _ args r w email password Hm He Hp).
  destruct (find_user_by_email _ _) as [u|]; [|done].
  by rewrite (Hbad u eq_refl).
Qed.

Lemma login_failure_is_uniform_witness :
  login demo_check [] (post [("email", "test@x.com"); ("password", "wrong")])
    (World.mk (Session.mk None [] None)
       (Db.mk [headphones] []
          [User.mk 1 "Ann" "test@x.com" (demo_hash "s1" "pw1")]))
  = login demo_check [] (post [("email", "nobody@x.com"); ("password", "wrong")])
      (World.mk (Session.mk None [] None)
         (Db.mk [headphones] []
            [User.mk 1 "Ann" "test@x.com" (demo_hash "s1" "pw1")])).
Proof.
  refine (eq_trans (proj1 (login_failure_is_uniform demo_check []
            (post [("email", "test@x.com"); ("password", "wrong")])
            (World.mk (Session.mk None [] None)
               (Db.mk [headphones] []
                  [User.mk 1 "Ann" "test@x.com" (demo_hash "s1" "pw1")]))
            "test@x.com" "wrong" eq_refl eq_refl eq_refl _)) _).
  - intros u [= <-]. reflexivity.
  - symmetry.
    refine (proj1 (login_failure_is_uniform demo_check []
              (post [("email", "nobody@x.com"); ("password", "wrong")])
              (World.mk (Session.mk None [] None)
                 (Db.mk [headphones] []
                    [User.mk 1 "Ann" "test@x.com" (demo_hash "s1" "pw1")]))
              "nobody@x.com" "wrong" eq_refl eq_refl eq_refl _)).
    intros u [=].
Defined.

Lemma login_never_writes check args r w :
  cart_of (login check args r w).2 = cart_of w ∧
  World.db (login check args r w).2 = World.db w.
Proof.
  unfold login. run. case_decide; [|by rewrite render_run].
  destruct (form_item r "email"); simpl; [|done].
  destruct (form_item r "password"); simpl; [|done].
  destruct (find_user_by_email _ _) as [u|]; simpl; [|by rewrite render_run].
  destruct (check _ _); [done|]. by rewrite render_run.
Qed.

Lemma find_snoc {A} (f : A → bool) (l : list A) (x : A) :
  f x = true → ∃ y, List.find f (l ++ [x]) = Some y ∧ f y = true.
Proof.
  intros Hx. induction l as [|a l IH]; simpl.
  - rewrite Hx. eauto.
  - destruct (f a) eqn:Ha; eauto.
Qed.

Lemma find_snoc_fresh {A} (f : A → bool) (l : list A) (x : A) :
  List.find f l = None → f x = true → List.find f (l ++ [x]) = Some x.
Proof.
  intros Hl Hx. induction l as [|a l IH]; simpl in *.
  - by rewrite Hx.
  - destruct (f a); [done|]. auto.
Qed.

(** Register, then log in.  After a registration that stored a new user,
    a login with the same password and the same email, written in any
    letter case and with any blanks around it, succeeds when the
    capability verifies the digest it made: the visitor is redirected and
    is from then on the current user, under the id the registration gave. *)
Theorem register_then_login
    (generate_password_hash : string → string → string)
    (check_password_hash : string → string → bool)
    (salt : string) (r : Request.t) (w : World.t)
    (name email password : string)
    (args : list (string * string)) (r' : Request.t) (email' : string) :
  Request.method r = POST →
  form_get r "name" = Some name →
  form_get r "email" = Some email →
  form_get r "password" = Some password →
  find_user_by_email (normalize_email email) (Db.users (World.db w)) = None →
  Request.commit_ok r = true →
  check_password_hash (generate_password_hash salt password) password = true →
  Request.method r' = POST →
  form_get r' "email" = Some email' →
  form_get r' "password" = Some password →
  normalize_email email' = normalize_email email →
  (login check_password_hash args r'
     (reload (register generate_password_hash salt r w).2)).1
    = Returns (redirect (next_or_index args)) ∧
  current_user_id
    (login check_password_hash args r'
       (reload (register generate_password_hash salt r w).2)).2
    = Some (User.id (new_user generate_password_hash salt w name email password)).
Proof.
  intros Hm Hn He Hp Hnew Hok Hcheck Hm' He' Hp' Heq.
  rewrite (login_run _ args r' _ email' password Hm' He' Hp'), Heq.
  rewrite (register_run _ salt r w name email password Hm Hn He Hp), Hnew, Hok.
  cbn [snd fst flash modify with_session with_db reload World.db World.session
       add_user Db.users].
  unfold find_user_by_email in *.
  rewrite (find_snoc_fresh _ _ (new_user generate_password_hash salt w name
                                   email password) Hnew)
    by by apply bool_decide_eq_true_2.
  cbn [new_user User.password_hash]. rewrite Hcheck. split; [done|].
  unfold current_user_id. cbn.
  destruct (find_snoc
              (λ u, bool_decide (User.id u
                 = next_id (User.id <$> Db.users (World.db w))))
              (Db.users (World.db w))
              (new_user generate_password_hash salt w name email password))
    as (u & Hu & Hid); [by apply bool_decide_eq_true_2|].
  rewrite Hu. simpl. by apply bool_decide_eq_true in Hid as ->.
Qed.

Lemma register_then_login_witness :
  (login demo_check [] (post [("email", " TEST@X.COM "); ("password", "pw1")])
     (reload (register demo_hash "s1"
                (post (register_form "Ann" "Test@x.com" "pw1")) shop_new).2)).1
  = Returns (redirect "/") ∧
  current_user_id
    (login demo_check [] (post [("email", " TEST@X.COM "); ("password", "pw1")])
       (reload (register demo_hash "s1"
                  (post (register_form "Ann" "Test@x.com" "pw1")) shop_new).2)).2
  = Some 1.
Proof.
  exact (register_then_login demo_hash demo_check "s1"
           (post (register_form "Ann" "Test@x.com" "pw1")) shop_new
           "Ann" "Test@x.com" "pw1" []
           (post [("email", " TEST@X.COM "); ("password", "pw1")]) " TEST@X.COM "
           eq_refl eq_refl eq_refl eq_refl eq_refl eq_refl eq_refl
           eq_refl eq_refl eq_refl eq_refl).
Defined.

(** Logging out keeps the cart.  For a logged-in visitor [logout] answers
    with a redirect to the index and the message [Logged out.]; afterwards
    nobody is logged in, and the cart and the database are as before. *)
Theorem logout_keeps_cart (unauthorized : M Response) (w : World.t) (uid : Z) :
  current_user_id w = Some uid →
  (logout unauthorized w).1 = Returns (redirect (url_for "index")) ∧
  current_user_id (logout unauthorized w).2 = None ∧
  cart_of (logout unauthorized w).2 = cart_of w ∧
  World.db (logout unauthorized w).2 = World.db w ∧
  flashes_of (logout unauthorized w).2 = flashes_of w ++ [("info", "Logged out.")].
Proof. intros Hu. unfold logout. run. by rewrite Hu. Qed.

Lemma logout_keeps_cart_witness :
  cart_of (logout demo_unauthorized
             (World.mk (Session.mk (Some [(Some "5", 2)]) [] (Some 1))
                (Db.mk [headphones] [] [User.mk 1 "Ann" "a@x.com" "d"]))).2
  = [(Some "5", 2)].
Proof.
  exact (proj1 (proj2 (proj2 (logout_keeps_cart demo_unauthorized
           (World.mk (Session.mk (Some [(Some "5", 2)]) [] (Some 1))
              (Db.mk [headphones] [] [User.mk 1 "Ann" "a@x.com" "d"]))
           1 eq_refl)))).
Defined.

(** ** The keys of the database *)

Lemma next_id_above (ids : list Z) i : i ∈ ids → i < next_id ids.
Proof.
  unfold next_id. induction ids as [|j ids IH]; simpl.
  - by intros ?%elem_of_nil.
  - intros [->|Hi]%elem_of_cons; [lia|]. apply IH in Hi. lia.
Qed.

Lemma next_id_fresh (ids : list Z) : next_id ids ∉ ids.
Proof. intros Hin%next_id_above. lia. Qed.

Lemma current_user_stored w uid :
  current_user_id w = Some uid → uid ∈ User.id <$> Db.users (World.db w).
Proof.
  unfold current_user_id.
  destruct (Session.user_id (World.session w)) as [i|]; simpl; [|done].
  destruct (List.find _ _) as [u|] eqn:Hu; simpl; [|done].
  intros [= <-]. apply find_some in Hu as [Hin _].
  apply list_elem_of_fmap. exists u. split; [done|]. by apply list_elem_of_In.
Qed.

Lemma find_user_None_emails e us :
  find_user_by_email e us = None → e ∉ User.email <$> us.
Proof.
  intros Hf [u [-> Hu]]%list_elem_of_fmap.
  apply list_elem_of_In in Hu. apply (find_none _ _ Hf) in Hu.
  by apply bool_decide_eq_false in Hu.
Qed.

Lemma checkout_db_step r w :
  db_step (World.db w) (World.db (checkout r w).2).
Proof.
  destruct (cart_calc (Db.products (World.db w)) (cart_of w))
    as [[items total]|e] eqn:Hc.
  - destruct (decide (Request.method r = POST)) as [Hm|Hm].
    + destruct items as [|it items].
      * rewrite (checkout_empty r w total Hm Hc). constructor.
      * rewrite (checkout_commit r w _ total Hm Hc) by done.
        destruct (Request.commit_ok r); [|constructor].
        apply (db_order _ (placed_order r w (it :: items) total)); [done|].
        intros uid. apply current_user_stored.
    + unfold checkout. run. rewrite cart_items_run, Hc.
      rewrite decide_False by done. constructor.
  - unfold checkout. run. rewrite cart_items_run, Hc. constructor.
Qed.

Lemma register_db_step gph salt r w :
  db_step (World.db w) (World.db (register gph salt r w).2).
Proof.
  unfold register. run. case_decide; [|rewrite render_run; constructor].
  destruct (form_item r "name") as [name|]; simpl; [|constructor].
  destruct (form_item r "email") as [email|]; simpl; [|constructor].
  destruct (form_item r "password") as [password|]; simpl; [|constructor].
  destruct (find_user_by_email _ _) eqn:Hf; simpl; [constructor|].
  destruct (Request.commit_ok r); [|constructor].
  apply (db_user _ (User.mk _ _ _ _)); [done|].
  by apply find_user_None_emails.
Qed.

Lemma db_step_unique_keys d d' : db_step d d' → unique_keys d → unique_keys d'.
Proof.
  intros Hstep (Ho & Hu & He). destruct Hstep as [|o Hid _|u Hid Hemail];
    unfold unique_keys; simpl; [done| |].
  - split; [|done]. rewrite fmap_app. apply NoDup_app. split; [done|].
    split; [|apply NoDup_singleton].
    intros i Hi ->%list_elem_of_singleton. rewrite Hid in Hi.
    by apply next_id_fresh in Hi.
  - split; [done|]. rewrite !fmap_app. split; apply NoDup_app.
    + split; [done|]. split; [|apply NoDup_singleton].
      intros i Hi ->%list_elem_of_singleton. rewrite Hid in Hi.
      by apply next_id_fresh in Hi.
    + split; [done|]. split; [|apply NoDup_singleton].
      by intros e Hi ->%list_elem_of_singleton.
Qed.

Lemma db_step_orders_have_users d d' :
  db_step d d' → orders_have_users d → orders_have_users d'.
Proof.
  intros Hstep Hinv. destruct Hstep as [|o _ Ho|u _ _];
    unfold orders_have_users in *; simpl; [done| |].
  - apply Forall_app. split; [done|]. by repeat constructor.
  - eapply Forall_impl; [exact Hinv|]. intros o Ho uid Huid.
    rewrite fmap_app. apply elem_of_app. left. by apply Ho.
Qed.

Section SiteSteps.
Variable generate_password_hash : string → string → string.
Variable check_password_hash : string → string → bool.
Variable unauthorized : M Response.
Hypothesis unauthorized_db : ∀ w, World.db (unauthorized w).2 = World.db w.

Lemma visit_db_step (v : visit) (w : World.t) :
  db_step (World.db w)
    (World.db (visit_world generate_password_hash check_password_hash
                 unauthorized v w)).
Proof.
  destruct v as [[pid r|r|r|salt r]|pid|args r|]; simpl.
  - rewrite add_to_cart_db. constructor.
  - rewrite cart_view_db. constructor.
  - apply checkout_db_step.
  - apply register_db_step.
  - rewrite product_detail_run. destruct (find_product _ _); constructor.
  - rewrite (proj2 (login_never_writes _ args r w)). constructor.
  - unfold logout. run. destruct (current_user_id w); simpl; [constructor|].
    rewrite unauthorized_db. constructor.
Qed.

Lemma browse_db_invariant (P : Db.t → Prop) (vs : list visit) (w : World.t) :
  (∀ d d', db_step d d' → P d → P d') →
  P (World.db w) →
  P (World.db (browse generate_password_hash check_password_hash
                 unauthorized vs w)).
Proof.
  intros Hstep. revert w. induction vs as [|v vs IH]; intros w HP; [done|].
  simpl. apply IH. rewrite db_send_back.
  eapply Hstep; [apply visit_db_step | done].
Qed.

End SiteSteps.

(** Primary keys and the unique email hold.  From a database whose order
    ids, user ids and user emails are pairwise distinct (an empty one, for
    instance), they are still pairwise distinct after any sequence of
    visits: each new order and each new user gets an id no row has, and
    [register] stores no email twice. *)
Theorem keys_stay_unique
    (generate_password_hash : string → string → string)
    (check_password_hash : string → string → bool)
    (unauthorized : M Response) (vs : list visit) (w : World.t) :
  (∀ w, World.db (unauthorized w).2 = World.db w) →
  unique_keys (World.db w) →
  unique_keys (World.db (browse generate_password_hash check_password_hash
                           unauthorized vs w)).
Proof.
  intros Hun Hk. apply browse_db_invariant; [done| |done].
  apply db_step_unique_keys.
Qed.

Lemma keys_stay_unique_witness :
  (User.email <$> Db.users (World.db
     (browse demo_hash demo_check demo_unauthorized
        [Shop (DoRegister "s1" (post (register_form "Ann" "Test@x.com" "pw1")));
         Shop (DoRegister "s2" (post (register_form "Bob" "test@x.com" "pw2")));
         Shop (DoRegister "s2" (post (register_form "Bob" "bob@x.com" "pw2")));
         Logout]
        shop_new))) = ["test@x.com"; "bob@x.com"] ∧
  unique_keys (World.db
     (browse demo_hash demo_check demo_unauthorized
        [Shop (DoRegister "s1" (post (register_form "Ann" "Test@x.com" "pw1")));
         Shop (DoRegister "s2" (post (register_form "Bob" "test@x.com" "pw2")));
         Shop (DoRegister "s2" (post (register_form "Bob" "bob@x.com" "pw2")));
         Logout]
        shop_new)).
Proof.
  split; [vm_compute; reflexivity|].
  apply keys_stay_unique.
  - reflexivity.
  - repeat split; constructor.
Defined.

(** An order never points to a user that is not stored.  From a database
    where every order of a user names a stored user, this still holds
    after any sequence of visits: [checkout] files an order under the
    session's user only when that user is found, and as a guest order
    otherwise. *)
Theorem orders_keep_their_users
    (generate_password_hash : string → string → string)
    (check_password_hash : string → string → bool)
    (unauthorized : M Response) (vs : list visit) (w : World.t) :
  (∀ w, World.db (unauthorized w).2 = World.db w) →
  orders_have_users (World.db w) →
  orders_have_users (World.db (browse generate_password_hash
                                 check_password_hash unauthorized vs w)).
Proof.
  intros Hun Hk. apply browse_db_invariant; [done| |done].
  apply db_step_orders_have_users.
Qed.

Lemma orders_keep_their_users_witness :
  (Order.user_id <$> Db.orders (World.db
     (browse demo_hash demo_check demo_unauthorized
        [Shop (DoAddToCart 5 (post [("qty", "1")]));
         Shop (DoCheckout (post []));
         Shop (DoRegister "s1" (post (register_form "Ann" "Test@x.com" "pw1")));
         Login [] (post [("email", "test@x.com"); ("password", "pw1")]);
         Shop (DoAddToCart 7 (post [("qty", "2")]));
         Shop (DoCheckout (post []))]
        shop_new))) = [None; Some 1] ∧
  orders_have_users (World.db
     (browse demo_hash demo_check demo_unauthorized
        [Shop (DoAddToCart 5 (post [("qty", "1")]));
         Shop (DoCheckout (post []));
         Shop (DoRegister "s1" (post (register_form "Ann" "Test@x.com" "pw1")));
         Login [] (post [("email", "test@x.com"); ("password", "pw1")]);
         Shop (DoAddToCart 7 (post [("qty", "2")]));
         Shop (DoCheckout (post []))]
        shop_new)).
Proof.
  split; [vm_compute; reflexivity|].
  apply orders_keep_their_users.
  - reflexivity.
  - constructor.
Defined.

(** ** The key of a product in the cart *)





















(** The cart page after that request: both products, the new one last. *)
Example added_product_ex :
  (cart_items (add_to_cart 7 (post [("qty", "3")])
                 (shop_with [(Some "5", 2)])).2).1
  = Returns ([LineItem.mk headphones 2 (Py.lit 200);
              LineItem.mk watch 3 (Py.lit 10497)], Py.lit 10697).
Proof. vm_compute. reflexivity. Qed.

(** ** Seeding *)

Lemma add_products_length by_name rows ps ps' :
  add_products by_name rows ps = inr ps' →
  length ps' = (length rows + length ps)%nat.
Proof.
  revert ps. induction rows as [|[[[[title desc] price] img] cname] rows IH];
    intros ps; simpl.
  - by intros [= ->].
  - destruct (by_name !! cname) as [c|]; [|done].
    intros ->%IH. rewrite length_app. simpl. lia.
Qed.

Lemma seed_of_full a b s :
  Catalog.categories s ≠ [] → Catalog.products s ≠ [] → seed a b s = Seeded s.
Proof.
  destruct s as [[|c cats] [|p ps]]; try done.
Qed.

(** [seed] is idempotent: run again on the tables that a complete run
    left, whatever the engine then does with commits, it ends normally and
    leaves them exactly as they are. *)
Theorem seed_is_idempotent (a b a' b' : bool) (s s' : Catalog.t) :
  seed a b s = Seeded s' → seed a' b' s' = Seeded s'.
Proof.
  intros Hs.
  assert (Hfull : Catalog.categories s' ≠ [] ∧ Catalog.products s' ≠ []).
  { revert Hs. unfold seed.
    destruct s as [[|c cats] [|p ps]]; cbn [Catalog.categories Catalog.products].
    - destruct a; [|done].
      destruct (add_products _ sample []) as [|ps'] eqn:Hadd; [done|].
      destruct b; [|done]. intros [= <-]. cbn [Catalog.categories Catalog.products].
      apply add_products_length in Hadd. split; [by vm_compute|by destruct ps'].
    - destruct a; [|done]. intros [= <-]. cbn [Catalog.categories Catalog.products].
      split; [by vm_compute|done].
    - destruct (add_products _ sample []) as [|ps'] eqn:Hadd; [done|].
      destruct b; [|done]. intros [= <-]. cbn [Catalog.categories Catalog.products].
      apply add_products_length in Hadd. split; [done|by destruct ps'].
    - by intros [= <-]. }
  destruct Hfull as [Hc Hp]. by apply seed_of_full.
Qed.

Lemma seed_is_idempotent_witness :
  length (Catalog.products (seed_store (seed true true (Catalog.mk [] []))))
    = 5%nat ∧
  seed true true (seed_store (seed true true (Catalog.mk [] [])))
    = seed true true (Catalog.mk [] []).
Proof.
  split; [reflexivity|].
  apply (seed_is_idempotent true true true true (Catalog.mk [] [])).
  reflexivity.
Defined.

(** [seed] never deletes or rewrites a row.  However it ends, the stored
    categories and products begin with the rows that were there, and a
    table that had rows is left exactly as it was. *)
Theorem seed_keeps_rows (a b : bool) (s : Catalog.t) :
  Catalog.categories s `prefix_of` Catalog.categories (seed_store (seed a b s)) ∧
  Catalog.products s `prefix_of` Catalog.products (seed_store (seed a b s)) ∧
  (Catalog.categories s ≠ [] →
   Catalog.categories (seed_store (seed a b s)) = Catalog.categories s) ∧
  (Catalog.products s ≠ [] →
   Catalog.products (seed_store (seed a b s)) = Catalog.products s).
Proof.
  unfold seed.
  destruct s as [[|c cats] [|p ps]]; cbn [Catalog.categories Catalog.products].
  - destruct a; [|by repeat split].
    destruct (add_products _ sample []); [|destruct b];
      repeat split; try done; apply prefix_nil.
  - destruct a; repeat split; try done; apply prefix_nil.
  - destruct (add_products _ sample []); [|destruct b];
      repeat split; try done; apply prefix_nil.
  - by repeat split.
Qed.

Lemma cat_foldl_None (cats : list Category.t) (m : gmap string Category.t) n :
  foldl (λ m c, <[Category.name c := c]> m) m cats !! n = None ↔
  m !! n = None ∧ n ∉ Category.name <$> cats.
Proof.
  revert m. induction cats as [|c cats IH]; intros m; csimpl.
  - split; [intros ?; split; [done|apply not_elem_of_nil] | by intros [? _]].
  - rewrite IH, not_elem_of_cons, lookup_insert_None.
    split; [intros [[Hm Hne] Hn] | intros [Hm [Hne Hn]]]; repeat split; auto.
Qed.

Lemma cat_by_name_None cats n :
  cat_by_name cats !! n = None ↔ n ∉ Category.name <$> cats.
Proof.
  unfold cat_by_name. rewrite cat_foldl_None, lookup_empty.
  split; [by intros [_ ?] | by split].
Qed.



Lemma add_products_missing cats rows ps (row : sample_row) :
  row ∈ rows → row.2 ∉ Category.name <$> cats →
  ∃ cname, add_products (cat_by_name cats) rows ps = inl cname ∧
           cname ∉ Category.name <$> cats.
Proof.
  intros Hrow Hmiss. revert ps.
  induction rows as [|[[[[title desc] price] img] cname] rows IH]; intros ps.
  - by apply elem_of_nil in Hrow.
  - simpl. destruct (cat_by_name cats !! cname) as [c|] eqn:Hc.
    + apply elem_of_cons in Hrow as [->|Hrow]; [|by apply IH].
      simpl in Hmiss. apply cat_by_name_None in Hmiss. congruence.
    + exists cname. split; [done|]. by apply cat_by_name_None.
Qed.

(** Seeding products into a database that has categories, but not all of
    those the sample names, fails: when the categories table is not empty,
    the products table is empty and some sample row names a category that
    is not stored, [seed] ends with the [KeyError] of a missing name and
    the tables are unchanged, no product stored. *)
Theorem seed_missing_category_raises (a b : bool) (s : Catalog.t)
    (row : sample_row) :
  Catalog.categories s ≠ [] →
  Catalog.products s = [] →
  row ∈ sample →
  row.2 ∉ Category.name <$> Catalog.categories s →
  ∃ cname, seed a b s = SeedKeyError cname s ∧
           cname ∉ Category.name <$> Catalog.categories s.
Proof.
  intros Hc Hp Hrow Hmiss. destruct s as [[|c cats] ps]; [done|].
  simpl in Hp. subst ps. unfold seed. cbn [Catalog.categories Catalog.products].
  destruct (add_products_missing (c :: cats) sample [] row Hrow Hmiss)
    as (cname & -> & Hn).
  by exists cname.
Qed.

Lemma seed_missing_category_raises_witness :
  ∃ cname, seed true true (Catalog.mk [Category.mk 1 "Electronics";
                                       Category.mk 2 "Books"] [])
           = SeedKeyError cname (Catalog.mk [Category.mk 1 "Electronics";
                                             Category.mk 2 "Books"] []) ∧
           cname ∉ ["Electronics"; "Books"].
Proof.
  apply (seed_missing_category_raises true true
           (Catalog.mk [Category.mk 1 "Electronics"; Category.mk 2 "Books"] [])
           ("Cotton T‑Shirt", "Soft, breathable cotton tee in multiple colors.",
            Py.lit 499, "https://picsum.photos/seed/tshirt/600/400", "Clothing")).
  - discriminate.
  - reflexivity.
  - unfold sample. rewrite !elem_of_cons. right. right. by left.
  - by apply (bool_decide_unpack _).
Defined.




(** ** Forms with a missing field, and what an order holds *)

(** A POST to [/register] that lacks the name, the email or the password,
    and a POST to [/login] that lacks the email or the password, is
    answered 400, before anything is looked up or written: the world is
    exactly as it was. *)
Theorem missing_field_is_bad_request
    (generate_password_hash : string → string → string)
    (check_password_hash : string → string → bool)
    (salt : string) (args : list (string * string))
    (r : Request.t) (w : World.t) :
  Request.method r = POST →
  (form_get r "name" = None ∨ form_get r "email" = None ∨
   form_get r "password" = None →
   register generate_password_hash salt r w = (Raises HTTP400, w)) ∧
  (form_get r "email" = None ∨ form_get r "password" = None →
   login check_password_hash args r w = (Raises HTTP400, w)).
Proof.
  intros Hm. split.
  - intros Hmiss. unfold register, form_item. run.
    rewrite Hm, decide_True by done.
    destruct (form_get r "name"); simpl;
      [|done].
    destruct (form_get r "email"); simpl; [|done].
    destruct (form_get r "password"); simpl; [|done].
    by destruct Hmiss as [?|[?|?]].
  - intros Hmiss. unfold login, form_item. run.
    rewrite Hm, decide_True by done.
    destruct (form_get r "email"); simpl; [|done].
    destruct (form_get r "password"); simpl; [|done].
    by destruct Hmiss as [?|?].
Qed.

Lemma missing_field_is_bad_request_witness :
  register demo_hash "s1" (post [("name", "Ann"); ("email", "a@x.com")]) shop_new
    = (Raises HTTP400, shop_new) ∧
  login demo_check [] (post [("password", "pw")]) shop_new
    = (Raises HTTP400, shop_new).
Proof.
  split.
  - apply (proj1 (missing_field_is_bad_request demo_hash demo_check "s1" []
                    (post [("name", "Ann"); ("email", "a@x.com")]) shop_new
                    eq_refl)).
    right. right. reflexivity.
  - apply (proj2 (missing_field_is_bad_request demo_hash demo_check "s1" []
                    (post [("password", "pw")]) shop_new eq_refl)).
    left. reflexivity.
Defined.


